(** * Dataset normalizer of the Touche23-ValueEval notebook

    A shallow embedding of [eda/touche23-valueeval.ipynb]: the text
    identifier [hash_text], the stance mapping, the id columns and the
    cell that groups the rows by conclusion id and prints one JSON node
    per line.

    Python values are modelled as follows.
    - a [str] is the list of its Unicode code points ([Z]);
    - a cell of a table is a [str] or the missing value NaN, which is
      what [pd.read_csv] makes of an empty field; [run_notebook] is the
      run on such tables, and [notebook] the same run on tables whose
      cells are all [str], to which it reduces there. Columns that
      [pd.read_csv] infers as numeric are outside the model;
    - the [str] methods the notebook calls ([strip], [lower], [split],
      [join], indexing) follow CPython; the Unicode character database
      they consult (case mappings, NFKD) is a parameter, [UnicodeData];
    - [xxh64_hexdigest] is the XXH64 algorithm over the UTF-8 bytes of
      its argument, written on 64-bit words represented in [Z];
    - the data frame is the list of its rows, a row being a record of
      its columns;
    - the output file is the list of the nodes printed so far, one per
      line, threaded through a state-and-exception monad. *)

From Stdlib Require Import String Ascii.
From Stdlib Require Import ZArith List Bool Lia ZifyBool.
From Stdlib Require Import Sorted Permutation.
Import ListNotations.
Local Open Scope Z_scope.

(** ** Python strings *)

Definition str : Type := list Z.

(** A string literal of the notebook (ASCII), as a [str]. *)
Definition lit (s : String.string) : str :=
  map (fun a => Z.of_N (N_of_ascii a)) (String.list_ascii_of_string s).
Arguments lit s%_string_scope.

Definition str_eqb (a b : str) : bool :=
  if list_eq_dec Z.eq_dec a b then true else false.

(** Comparison of two [str], code point by code point, as Python's [<]. *)
Fixpoint str_ltb (a b : str) : bool :=
  match a, b with
  | _, [] => false
  | [], _ :: _ => true
  | x :: a', y :: b' => (x <? y) || ((x =? y) && str_ltb a' b')
  end.

Module Py.

(** [str.isspace] on one character: the code points CPython's
    [_PyUnicode_IsWhitespace] accepts. *)
Definition isspace (c : Z) : bool :=
  ((0x09 <=? c) && (c <=? 0x0D)) || ((0x1C <=? c) && (c <=? 0x20))
  || (c =? 0x85) || (c =? 0xA0) || (c =? 0x1680)
  || ((0x2000 <=? c) && (c <=? 0x200A))
  || (c =? 0x2028) || (c =? 0x2029) || (c =? 0x202F) || (c =? 0x205F)
  || (c =? 0x3000).

Fixpoint lstrip (s : str) : str :=
  match s with
  | [] => []
  | c :: s' => if isspace c then lstrip s' else s
  end.

Definition rstrip (s : str) : str := rev (lstrip (rev s)).

(** [s.strip()]: leading and trailing whitespace removed. *)
Definition strip (s : str) : str := rstrip (lstrip s).

Definition emit (word : str) (rest : list str) : list str :=
  match word with [] => rest | _ :: _ => word :: rest end.

(** The scan of [s.split()]: [word] holds the characters of the word
    being read; a whitespace character closes it. *)
Fixpoint split_from (word : str) (s : str) : list str :=
  match s with
  | [] => emit word []
  | c :: s' =>
      if isspace c then emit word (split_from [] s')
      else split_from (word ++ [c]) s'
  end.

(** [s.split()] with no separator: the maximal runs of non-whitespace
    characters. *)
Definition split (s : str) : list str := split_from [] s.

(** [sep.join(words)]. *)
Fixpoint join (sep : str) (words : list str) : str :=
  match words with
  | [] => []
  | [w] => w
  | w :: ws => w ++ sep ++ join sep ws
  end.

(** The exceptions the notebook can meet: an index out of range, a value
    that cannot be subscripted, a value without the method called. *)
Inductive exn : Type := IndexError | TypeError | AttributeError.

(** [s[i]]: a one-character [str], or [IndexError] out of range;
    a negative index counts from the end. *)
Definition getitem (s : str) (i : Z) : exn + str :=
  let n := Z.of_nat (length s) in
  let j := if i <? 0 then i + n else i in
  if (0 <=? j) && (j <? n) then
    match nth_error s (Z.to_nat j) with
    | Some c => inr [c]
    | None => inl IndexError
    end
  else inl IndexError.

End Py.

(** ** The Unicode character database

    The tables behind [str.lower] and [unicodedata.normalize] belong to
    the Python runtime, not to the notebook; they are taken as a
    parameter. *)
Class UnicodeData : Type := {
  (** the full lowercase mapping of one character *)
  tolower_full : Z -> list Z;
  (** the [Cased] and [Case_Ignorable] properties *)
  is_cased : Z -> bool;
  is_case_ignorable : Z -> bool;
  (** [unicodedata.normalize("NFKD", s)] *)
  nfkd : str -> str
}.

Definition CAPITAL_SIGMA : Z := 0x3A3.
Definition SMALL_SIGMA : Z := 0x3C3.
Definition FINAL_SIGMA : Z := 0x3C2.

Section Lower.
Context {U : UnicodeData}.

(** Is the first character of [s] that is not case-ignorable a cased
    one? *)
Fixpoint next_cased (s : str) : bool :=
  match s with
  | [] => false
  | c :: s' => if is_case_ignorable c then next_cased s' else is_cased c
  end.

(** CPython's [do_lower]: every character is replaced by its full
    lowercase mapping, except the capital sigma, which becomes a final
    sigma when it ends a word (a cased letter before it, none after it,
    case-ignorable characters skipped) and a small sigma otherwise.
    [before] tells whether the last character before [s] that is not
    case-ignorable is cased. *)
Fixpoint lower_from (before : bool) (s : str) : str :=
  match s with
  | [] => []
  | c :: s' =>
      (if c =? CAPITAL_SIGMA
       then [if before && negb (next_cased s') then FINAL_SIGMA
             else SMALL_SIGMA]
       else tolower_full c)
      ++ lower_from (if is_case_ignorable c then before else is_cased c) s'
  end.

(** [s.lower()]. *)
Definition lower (s : str) : str := lower_from false s.

End Lower.

(** ** XXH64

    [xxhash.xxh64_hexdigest(text, seed)]: a [str] argument is hashed
    through its UTF-8 encoding; the digest is printed as 16 lowercase
    hexadecimal digits, most significant first. *)
Module XXH64.

Definition PRIME64_1 : Z := 0x9E3779B185EBCA87.
Definition PRIME64_2 : Z := 0xC2B2AE3D27D4EB4F.
Definition PRIME64_3 : Z := 0x165667B19E3779F9.
Definition PRIME64_4 : Z := 0x85EBCA77C2B2AE63.
Definition PRIME64_5 : Z := 0x27D4EB2F165667C5.

Definition wrap (x : Z) : Z := x mod 2 ^ 64.

Definition rotl (x r : Z) : Z :=
  Z.lor (wrap (Z.shiftl x r)) (Z.shiftr x (64 - r)).

(** Little-endian read of a block of bytes. *)
Definition read_le (bs : list Z) : Z :=
  fold_right (fun b acc => b + 256 * acc) 0 bs.

Definition round (acc input : Z) : Z :=
  wrap (rotl (wrap (acc + input * PRIME64_2)) 31 * PRIME64_1).

Definition merge_round (acc val : Z) : Z :=
  wrap (Z.lxor acc (round 0 val) * PRIME64_1 + PRIME64_4).

Definition lane (p : list Z) (k : nat) : Z :=
  read_le (firstn 8 (skipn (8 * k) p)).

(** The stripe loop: four accumulators, 32 bytes per iteration, while at
    least 32 bytes remain. [fuel] bounds the number of iterations. *)
Fixpoint stripes (fuel : nat) (v : Z * Z * Z * Z) (p : list Z)
  : (Z * Z * Z * Z) * list Z :=
  match fuel with
  | O => (v, p)
  | S fuel' =>
      if (32 <=? length p)%nat then
        let '(v1, v2, v3, v4) := v in
        stripes fuel'
          (round v1 (lane p 0), round v2 (lane p 1),
           round v3 (lane p 2), round v4 (lane p 3))
          (skipn 32 p)
      else (v, p)
  end.

(** The tail: 8 bytes at a time, then 4 bytes once, then byte by
    byte. *)
Fixpoint tail8 (fuel : nat) (h : Z) (p : list Z) : Z * list Z :=
  match fuel with
  | O => (h, p)
  | S fuel' =>
      if (8 <=? length p)%nat then
        let k1 := round 0 (read_le (firstn 8 p)) in
        tail8 fuel'
          (wrap (rotl (Z.lxor h k1) 27 * PRIME64_1 + PRIME64_4))
          (skipn 8 p)
      else (h, p)
  end.

Definition tail4 (h : Z) (p : list Z) : Z * list Z :=
  if (4 <=? length p)%nat then
    (wrap (rotl (Z.lxor h (wrap (read_le (firstn 4 p) * PRIME64_1))) 23
           * PRIME64_2 + PRIME64_3),
     skipn 4 p)
  else (h, p).

Fixpoint tail1 (h : Z) (p : list Z) : Z :=
  match p with
  | [] => h
  | b :: p' =>
      tail1 (wrap (rotl (Z.lxor h (wrap (b * PRIME64_5))) 11 * PRIME64_1)) p'
  end.

Definition avalanche (h : Z) : Z :=
  let h := Z.lxor h (Z.shiftr h 33) in
  let h := wrap (h * PRIME64_2) in
  let h := Z.lxor h (Z.shiftr h 29) in
  let h := wrap (h * PRIME64_3) in
  Z.lxor h (Z.shiftr h 32).

Definition xxh64 (input : list Z) (seed : Z) : Z :=
  let len := length input in
  let '(h, p) :=
    if (32 <=? len)%nat then
      let '((v1, v2, v3, v4), p) :=
        stripes len
          (wrap (seed + PRIME64_1 + PRIME64_2), wrap (seed + PRIME64_2),
           wrap seed, wrap (seed - PRIME64_1))
          input in
      let h := wrap (rotl v1 1 + rotl v2 7 + rotl v3 12 + rotl v4 18) in
      (merge_round (merge_round (merge_round (merge_round h v1) v2) v3) v4,
       p)
    else (wrap (seed + PRIME64_5), input) in
  let h := wrap (h + Z.of_nat len) in
  let '(h, p) := tail8 len h p in
  let '(h, p) := tail4 h p in
  avalanche (tail1 h p).

(** The UTF-8 encoding of one code point. *)
Definition utf8_char (c : Z) : list Z :=
  if c <? 0x80 then [c]
  else if c <? 0x800 then [0xC0 + c / 64; 0x80 + c mod 64]
  else if c <? 0x10000 then
    [0xE0 + c / 4096; 0x80 + (c / 64) mod 64; 0x80 + c mod 64]
  else
    [0xF0 + c / 262144; 0x80 + (c / 4096) mod 64;
     0x80 + (c / 64) mod 64; 0x80 + c mod 64].

Definition utf8_encode (s : str) : list Z := flat_map utf8_char s.

Definition hex_digit (d : Z) : Z := if d <? 10 then 48 + d else 87 + d.

Fixpoint hex_of (digits : nat) (x : Z) : str :=
  match digits with
  | O => []
  | S n => hex_of n (x / 16) ++ [hex_digit (x mod 16)]
  end.

Definition xxh64_hexdigest (text : str) (seed : Z) : str :=
  hex_of 16 (xxh64 (utf8_encode text) seed).

End XXH64.

(** ** The notebook *)

(** One line of [arguments-{training,validation,test}.tsv]: the four
    columns, in the order of the files. *)
Record Argument : Type := {
  raw_Argument_ID : str;
  raw_Conclusion : str;
  raw_Stance : str;
  raw_Premise : str
}.

(** One row of the frame [dataset] once every column is there. Columns
    0 to 3 come from the file; [relation] is [None] where pandas holds
    a missing value (NaN). *)
Record Row : Type := {
  Argument_ID : str;
  Conclusion : str;
  Stance : str;
  Premise : str;
  split : str;
  relation : option str;
  conclusion_id : str;
  premise_id : str
}.

Definition DataFrame : Type := list Row.

(** The metadata of a node: the two shapes of dictionary the notebook
    builds. The relation type of a premise is [None] when the frame
    holds NaN there. *)
Inductive Metadata : Type :=
| PositionMeta (subdataset type : str)
| PremiseMeta (argument_id subdataset related_to original_split : str)
    (type : option str).

(** A node, printed as one line of the output file. *)
Record Node : Type := {
  node_dataset : str;
  node_id : str;
  node_text : str;
  node_metadata : Metadata
}.

Definition is_position (n : Node) : bool :=
  match node_metadata n with PositionMeta _ _ => true | _ => false end.

Definition is_premise (n : Node) : bool :=
  match node_metadata n with PremiseMeta _ _ _ _ _ => true | _ => false end.

(** ** Writing to the file: state and exceptions

    The state is the content of the output file, a list of lines; a
    computation either returns or raises, and in both cases leaves the
    lines it has printed. *)
Definition File : Type := list Node.

Definition M (A : Type) : Type := File -> (Py.exn + A) * File.

Definition ret {A} (a : A) : M A := fun fh => (inr a, fh).

Definition bind {A B} (m : M A) (k : A -> M B) : M B :=
  fun fh =>
    match m fh with
    | (inl e, fh') => (inl e, fh')
    | (inr a, fh') => k a fh'
    end.

Definition lift {A} (r : Py.exn + A) : M A := fun fh => (r, fh).

(** [open(path, "wt")]: the file is emptied. *)
Definition open_wt : M unit := fun _ => (inr tt, []).

(** [print(json.dumps(node), file=fh)]: one more line. *)
Definition print (n : Node) : M unit := fun fh => (inr tt, fh ++ [n]).

Declare Scope py_scope.
Delimit Scope py_scope with py.
Notation "x <- m ;; k" := (bind m (fun x => k))
  (at level 61, m at next level, right associativity) : py_scope.
Notation "m ;;; k" := (bind m (fun _ => k))
  (at level 61, right associativity) : py_scope.

(** [for x in l: body]. *)
Fixpoint for_each {A} (l : list A) (body : A -> M unit) : M unit :=
  match l with
  | [] => ret tt
  | x :: l' => (body x ;;; for_each l' body)%py
  end.

(** ** pandas *)

(** [dict.get]: the first entry under the key. *)
Fixpoint dict_get (d : list (str * str)) (k : str) : option str :=
  match d with
  | [] => None
  | (k', v) :: d' => if str_eqb k k' then Some v else dict_get d' k
  end.

(** [df.iloc[i, j]], the column [j] being given by its accessor. *)
Definition iloc (df : DataFrame) (i : nat) (column : Row -> str)
  : Py.exn + str :=
  match nth_error df i with
  | Some r => inr (column r)
  | None => inl Py.IndexError
  end.

Fixpoint insert_key (k : str) (keys : list str) : list str :=
  match keys with
  | [] => [k]
  | k' :: keys' =>
      if str_eqb k k' then keys
      else if str_ltb k k' then k :: keys
      else k' :: insert_key k keys'
  end.

(** The distinct values of a column, in ascending order. *)
Definition sorted_keys (keys : list str) : list str :=
  fold_right insert_key [] keys.

(** [df.groupby(column)] as it is iterated: one pair per distinct key,
    keys ascending (pandas sorts them), each with the rows under that
    key in the order of the frame. *)
Definition groupby (column : Row -> str) (df : DataFrame)
  : list (str * DataFrame) :=
  map (fun k => (k, filter (fun r => str_eqb (column r) k) df))
      (sorted_keys (map column df)).

(** ** The cells *)

Section Notebook.
Context {U : UnicodeData}.

(** <<
    def hash_text(text: str) -> str:
        text = "".join(text.strip().lower().split())
        return xxh64_hexdigest(text, seed=42)
    >> *)
Definition hash_text (text : str) : str :=
  let text := Py.join (lit "") (Py.split (lower (Py.strip text))) in
  XXH64.xxh64_hexdigest text 42.

(** <<
    stance_map = {"against": "Attack", "in favor of": "Support"}
    >> *)
Definition stance_map : list (str * str) :=
  [(lit "against", lit "Attack"); (lit "in favor of", lit "Support")].

(** The columns added to one line of a file:
    <<
    train_data["split"] = "train"  (and "test", "validation")
    dataset["relation"] = dataset["Stance"].map(stance_map)
    dataset["conclusion_id"] = dataset["Conclusion"].map(hash_text)
    dataset["premise_id"] = dataset["Premise"].map(hash_text)
    >> *)
Definition add_columns (split_name : str) (a : Argument) : Row := {|
  Argument_ID := raw_Argument_ID a;
  Conclusion := raw_Conclusion a;
  Stance := raw_Stance a;
  Premise := raw_Premise a;
  split := split_name;
  relation := dict_get stance_map (raw_Stance a);
  conclusion_id := hash_text (raw_Conclusion a);
  premise_id := hash_text (raw_Premise a)
|}.

(** [dataset = pd.concat([train_data, test_data, dev_data])], with the
    columns above. *)
Definition dataset (train_data dev_data test_data : list Argument)
  : DataFrame :=
  map (add_columns (lit "train")) train_data
  ++ map (add_columns (lit "test")) test_data
  ++ map (add_columns (lit "validation")) dev_data.

(** The text of a node:
    [unicodedata.normalize("NFKD", " ".join(text.strip().split()))]. *)
Definition display_text (text : str) : str :=
  nfkd (Py.join (lit " ") (Py.split (Py.strip text))).

(** The dictionary [conclusion_node]; column 1 of the frame is
    [Conclusion], column 0 is [Argument ID]. *)
Definition conclusion_node (conclusion_id : str) (conclusion_df : DataFrame)
  : M Node :=
  (conclusion <- lift (iloc conclusion_df 0 Conclusion) ;;
   argument_id <- lift (iloc conclusion_df 0 Argument_ID) ;;
   subdataset <- lift (Py.getitem argument_id 0) ;;
   ret {| node_dataset := lit "touche-23";
          node_id := conclusion_id;
          node_text := display_text conclusion;
          node_metadata := PositionMeta subdataset (lit "Position") |})%py.

(** The dictionary [premise_node]. *)
Definition premise_node (conclusion_id : str) (premise : Row) : M Node :=
  (subdataset <- lift (Py.getitem (Argument_ID premise) 0) ;;
   ret {| node_dataset := lit "touche-23";
          node_id := premise_id premise;
          node_text := display_text (Premise premise);
          node_metadata :=
            PremiseMeta (Argument_ID premise) subdataset conclusion_id
              (split premise) (relation premise) |})%py.

(** The last cell:
    <<
    with open(DATA_DIR / "touche23-data.jl", "wt") as fh:
        for conclusion_id, conclusion_df in dataset.groupby("conclusion_id"):
            conclusion_node = ...
            print(json.dumps(conclusion_node), file=fh)
            for pidx, premise in conclusion_df.iterrows():
                premise_node = ...
                print(json.dumps(premise_node), file=fh)
    >> *)
Definition save_dataset (dataset : DataFrame) : M unit :=
  (open_wt ;;;
   for_each (groupby conclusion_id dataset)
     (fun '(conclusion_id, conclusion_df) =>
        node <- conclusion_node conclusion_id conclusion_df ;;
        print node ;;;
        for_each conclusion_df
          (fun premise =>
             node <- premise_node conclusion_id premise ;;
             print node)))%py.

(** The whole notebook, run on three tables whose cells are all [str]
    while the output file holds [old]: what the run returns or raises,
    and the file it leaves. Tables with missing values are run by
    [run_notebook] below. *)
Definition notebook (train_data dev_data test_data : list Argument)
  (old : File) : (Py.exn + unit) * File :=
  save_dataset (dataset train_data dev_data test_data) old.

End Notebook.

(** ** The frames as [pd.read_csv] delivers them

    [notebook] above runs on tables whose cells are all [str]. What
    [pd.read_csv] hands over can also hold missing values: an empty
    field, or one of the markers of a missing value, is read as NaN,
    a float. [run_notebook] below is the same
    notebook on such frames; it is [notebook] when every cell is a
    [str]. *)

(** A cell of a column of texts (dtype object): a [str], or NaN. A
    column that [pd.read_csv] infers as numeric holds numbers; such a
    column is not of this type. *)
Inductive cell : Type := Str (s : str) | NaN.

(** One line of a file, as read: the four columns. *)
Record Line : Type := {
  line_Argument_ID : cell;
  line_Conclusion : cell;
  line_Stance : cell;
  line_Premise : cell
}.

(** One row of the frame [dataset] once every column is there. *)
Record FrameRow : Type := {
  f_Argument_ID : cell;
  f_Conclusion : cell;
  f_Stance : cell;
  f_Premise : cell;
  f_split : str;
  f_relation : option str;
  f_conclusion_id : str;
  f_premise_id : str
}.

(** The text of a cell that is a [str]. *)
Definition cell_text (c : cell) : str :=
  match c with
  | Str s => s
  | NaN => []
  end.

(** The receiver of a method of [str] ([text.strip()]): a float has no
    such method. *)
Definition str_method (c : cell) : Py.exn + str :=
  match c with
  | Str s => inr s
  | NaN => inl Py.AttributeError
  end.

(** [c[i]]: a float cannot be subscripted. *)
Definition subscript (c : cell) (i : Z) : Py.exn + str :=
  match c with
  | Str s => Py.getitem s i
  | NaN => inl Py.TypeError
  end.

(** [series.map(f)]: [f] on every cell in turn, NaN included; the first
    exception ends it. *)
Fixpoint series_map {A B} (f : A -> Py.exn + B) (column : list A)
  : Py.exn + list B :=
  match column with
  | [] => inr []
  | x :: column' =>
      match f x with
      | inl e => inl e
      | inr y =>
          match series_map f column' with
          | inl e => inl e
          | inr ys => inr (y :: ys)
          end
      end
  end.

(** [df.iloc[i, j]] and [df.groupby(column)] on rows of any type. *)
Definition iloc_of {R A} (df : list R) (i : nat) (column : R -> A)
  : Py.exn + A :=
  match nth_error df i with
  | Some r => inr (column r)
  | None => inl Py.IndexError
  end.

Definition groupby_of {R} (column : R -> str) (df : list R)
  : list (str * list R) :=
  map (fun k => (k, filter (fun r => str_eqb (column r) k) df))
      (sorted_keys (map column df)).

Section Frames.
Context {U : UnicodeData}.

(** [hash_text] applied to a cell. *)
Definition hash_text_of (text : cell) : Py.exn + str :=
  match str_method text with
  | inl e => inl e
  | inr text => inr (hash_text text)
  end.

(** [unicodedata.normalize("NFKD", " ".join(text.strip().split()))] on
    a cell. *)
Definition display_text_of (text : cell) : Py.exn + str :=
  match str_method text with
  | inl e => inl e
  | inr text => inr (display_text text)
  end.

(** [dataset["Stance"].map(stance_map)] on one cell: NaN is no key of
    the mapping. *)
Definition relation_of (stance : cell) : option str :=
  match stance with
  | Str s => dict_get stance_map s
  | NaN => None
  end.

(** [train_data["split"] = "train"] and the like. *)
Definition with_split (split_name : str) (lines : list Line)
  : list (Line * str) :=
  map (fun l => (l, split_name)) lines.

(** [pd.concat([train_data, test_data, dev_data])]. *)
Definition concat_frames (train_data dev_data test_data : list Line)
  : list (Line * str) :=
  with_split (lit "train") train_data
  ++ with_split (lit "test") test_data
  ++ with_split (lit "validation") dev_data.

Definition frame_row (x : Line * str * str * str) : FrameRow :=
  let '(l, split_name, conclusion_id, premise_id) := x in
  {| f_Argument_ID := line_Argument_ID l;
     f_Conclusion := line_Conclusion l;
     f_Stance := line_Stance l;
     f_Premise := line_Premise l;
     f_split := split_name;
     f_relation := relation_of (line_Stance l);
     f_conclusion_id := conclusion_id;
     f_premise_id := premise_id |}.

(** The cells that add the columns [relation], [conclusion_id] and
    [premise_id]; the two id columns are computed one after the other,
    each over the whole frame. *)
Definition add_id_columns (frame : list (Line * str))
  : Py.exn + list FrameRow :=
  match series_map hash_text_of
          (map (fun x => line_Conclusion (fst x)) frame) with
  | inl e => inl e
  | inr conclusion_ids =>
      match series_map hash_text_of
              (map (fun x => line_Premise (fst x)) frame) with
      | inl e => inl e
      | inr premise_ids =>
          inr (map frame_row
                 (combine (combine frame conclusion_ids) premise_ids))
      end
  end.

(** The dictionary [conclusion_node], on a group of the frame. *)
Definition conclusion_node_of (conclusion_id : str)
  (conclusion_df : list FrameRow) : M Node :=
  (conclusion <- lift (iloc_of conclusion_df 0 f_Conclusion) ;;
   text <- lift (display_text_of conclusion) ;;
   argument_id <- lift (iloc_of conclusion_df 0 f_Argument_ID) ;;
   subdataset <- lift (subscript argument_id 0) ;;
   ret {| node_dataset := lit "touche-23";
          node_id := conclusion_id;
          node_text := text;
          node_metadata := PositionMeta subdataset (lit "Position") |})%py.

(** The dictionary [premise_node], on a row of the frame. A node is
    built only when [premise["Argument ID"][0]] is, that is when the
    cell is a [str]. *)
Definition premise_node_of_row (conclusion_id : str) (premise : FrameRow)
  : M Node :=
  (text <- lift (display_text_of (f_Premise premise)) ;;
   subdataset <- lift (subscript (f_Argument_ID premise) 0) ;;
   match f_Argument_ID premise with
   | Str argument_id =>
       ret {| node_dataset := lit "touche-23";
              node_id := f_premise_id premise;
              node_text := text;
              node_metadata :=
                PremiseMeta argument_id subdataset conclusion_id
                  (f_split premise) (f_relation premise) |}
   | NaN => lift (inl Py.TypeError)
   end)%py.

(** The last cell, on the frame. *)
Definition save_frame (dataset : list FrameRow) : M unit :=
  (open_wt ;;;
   for_each (groupby_of f_conclusion_id dataset)
     (fun '(conclusion_id, conclusion_df) =>
        node <- conclusion_node_of conclusion_id conclusion_df ;;
        print node ;;;
        for_each conclusion_df
          (fun premise =>
             node <- premise_node_of_row conclusion_id premise ;;
             print node)))%py.

(** The notebook run from top to bottom on the three frames while the
    output file holds [old]; the run stops at the first exception, so
    the last cell, which opens the file, is reached only when the id
    columns could be computed. *)
Definition run_notebook (train_data dev_data test_data : list Line)
  (old : File) : (Py.exn + unit) * File :=
  match add_id_columns (concat_frames train_data dev_data test_data) with
  | inl e => (inl e, old)
  | inr dataset => save_frame dataset old
  end.

(** The dictionaries of the last cell as values, and the nodes it
    attempts to print, in order. *)
Definition try_conclusion_node_of (key : str) (df : list FrameRow)
  : Py.exn + Node :=
  fst (conclusion_node_of key df []).

Definition try_premise_node_of_row (key : str) (row : FrameRow)
  : Py.exn + Node :=
  fst (premise_node_of_row key row []).

Definition frame_attempts (groups : list (str * list FrameRow))
  : list (Py.exn + Node) :=
  flat_map
    (fun g => try_conclusion_node_of (fst g) (snd g)
              :: map (try_premise_node_of_row (fst g)) (snd g))
    groups.

(** The rows of the frame when every id can be computed. *)
Definition frame_rows (frame : list (Line * str)) : list FrameRow :=
  map (fun x =>
         frame_row (x, hash_text (cell_text (line_Conclusion (fst x))),
                    hash_text (cell_text (line_Premise (fst x)))))
      frame.

(** A line whose cells are the texts of a line of [str]. *)
Definition line_of (a : Argument) : Line := {|
  line_Argument_ID := Str (raw_Argument_ID a);
  line_Conclusion := Str (raw_Conclusion a);
  line_Stance := Str (raw_Stance a);
  line_Premise := Str (raw_Premise a)
|}.

(** The row of the frame of cells for a row of the frame of [str]. *)
Definition frame_row_of (r : Row) : FrameRow := {|
  f_Argument_ID := Str (Argument_ID r);
  f_Conclusion := Str (Conclusion r);
  f_Stance := Str (Stance r);
  f_Premise := Str (Premise r);
  f_split := split r;
  f_relation := relation r;
  f_conclusion_id := conclusion_id r;
  f_premise_id := premise_id r
|}.

End Frames.

(** The conclusion and the premise of every line are [str]. *)
Definition texts_are_str (lines : list Line) : Prop :=
  Forall (fun l => (exists s, line_Conclusion l = Str s)
                   /\ exists s, line_Premise l = Str s) lines.

(** No [Argument ID] is the empty [str]: [pd.read_csv] reads an empty
    field as NaN, never as the empty [str]. *)
Definition read_from_files (lines : list Line) : Prop :=
  Forall (fun l => line_Argument_ID l <> Str []) lines.

(** The [Argument ID] column is a column of texts: one of its cells at
    least is a [str]. pandas then gives the column the dtype object and
    hands its cells over as Python values, a [str] or the float NaN. A
    column without any text is read as a numeric column, whose cells
    are numpy scalars; the frames do not model it. *)
Definition argument_ids_are_text (lines : list Line) : Prop :=
  Exists (fun l => exists s, line_Argument_ID l = Str s) lines.


(** A small character database: the ASCII letters and the three Greek
    sigmas are cased, [A]-[Z] and the capital sigma have a lowercase,
    and nothing is decomposed. Python agrees with it on every text made
    of ASCII characters and sigmas. *)
Definition ascii_isupper (c : Z) : bool := (65 <=? c) && (c <=? 90).
Definition ascii_islower (c : Z) : bool := (97 <=? c) && (c <=? 122).
Definition is_sigma (c : Z) : bool :=
  (c =? CAPITAL_SIGMA) || (c =? SMALL_SIGMA) || (c =? FINAL_SIGMA).

#[export] Instance basic_data : UnicodeData := {|
  tolower_full c :=
    if ascii_isupper c then [c + 32]
    else if c =? CAPITAL_SIGMA then [SMALL_SIGMA]
    else [c];
  is_cased c := ascii_isupper c || ascii_islower c || is_sigma c;
  is_case_ignorable c :=
    (c =? 39) || (c =? 46) || (c =? 58) || (c =? 94) || (c =? 96);
  nfkd s := s
|}.

(** ** Notions of the specification *)

(** "Remove all whitespace". *)
Definition remove_whitespace (s : str) : str :=
  filter (fun c => negb (Py.isspace c)) s.

(** A run of whitespace characters. *)
Definition whitespace (r : str) : Prop :=
  Forall (fun c => Py.isspace c = true) r.

(** What the character database must satisfy for the results on
    [hash_text] that involve [lower]; the database of Python does.
    - a whitespace character is its own lowercase, and is neither cased
      nor case-ignorable;
    - the characters of a lowercase mapping are their own lowercase, and
      none is the capital sigma; so are the two small sigmas. *)
Class UnicodeLaws (U : UnicodeData) : Prop := {
  space_lower : forall c, Py.isspace c = true -> tolower_full c = [c];
  space_not_cased : forall c, Py.isspace c = true -> is_cased c = false;
  space_not_ignorable :
    forall c, Py.isspace c = true -> is_case_ignorable c = false;
  lower_stable :
    forall c d, In d (tolower_full c) ->
      tolower_full d = [d] /\ d <> CAPITAL_SIGMA;
  sigma_stable :
    tolower_full SMALL_SIGMA = [SMALL_SIGMA]
    /\ tolower_full FINAL_SIGMA = [FINAL_SIGMA]
}.

Section Specification.
Context {U : UnicodeData}.

(** The normalized form of a text, in the words of the specification:
    trim, lowercase, remove all whitespace. *)
Definition spec_normalize (text : str) : str :=
  remove_whitespace (lower (Py.strip text)).


(** Two characters that are one letter in two cases, where Python
    keeps them together: they have the same lowercase mapping and count
    alike around a sigma, and neither is a capital sigma unless both
    are. The capital sigma is set apart because [lower] does not give
    it its lowercase mapping but a small or a final sigma by its place
    in the word: a capital sigma and a small sigma are one letter in
    two cases that Python does not always lowercase to the same
    character. *)
Definition same_letter (c d : Z) : Prop :=
  tolower_full c = tolower_full d
  /\ is_cased c = is_cased d
  /\ is_case_ignorable c = is_case_ignorable d
  /\ (c = CAPITAL_SIGMA <-> d = CAPITAL_SIGMA).

(** Two texts that differ only in leading or trailing whitespace, in
    the length (and make) of their internal whitespace runs, or in
    letter case as Python lowercases it: character by character with
    the capital sigma kept in place ([variant_letter_case]), or, more
    generally, any two texts that [lower] makes equal
    ([variant_case]). *)
Inductive variant : str -> str -> Prop :=
| variant_trim l s r :
    whitespace l -> whitespace r -> variant (l ++ s ++ r) s
| variant_run s1 r1 r2 s2 :
    whitespace r1 -> whitespace r2 -> r1 <> [] -> r2 <> [] ->
    variant (s1 ++ r1 ++ s2) (s1 ++ r2 ++ s2)
| variant_letter_case a b : Forall2 same_letter a b -> variant a b
| variant_case a b : lower a = lower b -> variant a b
| variant_refl a : variant a a
| variant_sym a b : variant a b -> variant b a
| variant_trans a b c : variant a b -> variant b c -> variant a c.

(** The letters of the lowercased text, whitespace removed. *)
Definition letters (s : str) : str := remove_whitespace (lower s).

(** A character that lowercasing leaves alone. *)
Definition stable (d : Z) : Prop :=
  tolower_full d = [d] /\ d <> CAPITAL_SIGMA.

(** The nodes of the specification, for a row whose [Argument ID] is
    not empty: the sub-dataset code is the first character of the
    [Argument ID]. *)
Definition position_node (key : str) (first_row : Row) : Node := {|
  node_dataset := lit "touche-23";
  node_id := key;
  node_text := display_text (Conclusion first_row);
  node_metadata :=
    PositionMeta (firstn 1 (Argument_ID first_row)) (lit "Position")
|}.

Definition premise_node_of (key : str) (row : Row) : Node := {|
  node_dataset := lit "touche-23";
  node_id := premise_id row;
  node_text := display_text (Premise row);
  node_metadata :=
    PremiseMeta (Argument_ID row) (firstn 1 (Argument_ID row)) key
      (split row) (relation row)
|}.

(** The dictionaries of the last cell, as values: building one touches
    no file. *)
Definition try_conclusion_node (key : str) (df : DataFrame)
  : Py.exn + Node :=
  fst (conclusion_node key df []).

Definition try_premise_node (key : str) (row : Row) : Py.exn + Node :=
  fst (premise_node key row []).

(** The nodes the last cell attempts to print for one group, and for
    all of them, in order. *)
Definition group_attempts (g : str * DataFrame) : list (Py.exn + Node) :=
  try_conclusion_node (fst g) (snd g)
  :: map (try_premise_node (fst g)) (snd g).

Definition attempts (groups : list (str * DataFrame))
  : list (Py.exn + Node) :=
  flat_map group_attempts groups.

(** The lines of one group when nothing fails: the position node of
    its first row, then one premise node per row. *)
Definition group_nodes (g : str * DataFrame) : list Node :=
  match snd g with
  | [] => []
  | first_row :: _ =>
      position_node (fst g) first_row :: map (premise_node_of (fst g)) (snd g)
  end.

End Specification.

(** Printing a list of attempted nodes stops at the first exception:
    [printed] is what reaches the file, [outcome] how it ends. *)
Fixpoint printed (l : list (Py.exn + Node)) : list Node :=
  match l with
  | inr n :: l' => n :: printed l'
  | _ => []
  end.

Fixpoint outcome (l : list (Py.exn + Node)) : Py.exn + unit :=
  match l with
  | [] => inr tt
  | inl e :: _ => inl e
  | inr _ :: l' => outcome l'
  end.

Definition print_all (l : list (Py.exn + Node)) : M unit :=
  fun fh => (outcome l, fh ++ printed l).

(** The ids of the position nodes of a file, line after line. *)
Definition position_ids (fh : File) : list str :=
  map node_id (filter is_position fh).

Definition str_lt (a b : str) : Prop := str_ltb a b = true.

Definition str_dec : forall a b : str, {a = b} + {a <> b} :=
  list_eq_dec Z.eq_dec.

(** The sub-dataset code of a node. *)
Definition node_subdataset (n : Node) : str :=
  match node_metadata n with
  | PositionMeta subdataset _ => subdataset
  | PremiseMeta _ subdataset _ _ _ => subdataset
  end.

(** Every line of the tables has an [Argument ID]. *)
Definition has_argument_ids (rows : list Argument) : Prop :=
  Forall (fun a => raw_Argument_ID a <> []) rows.

(** ** Notions for the further results *)

(** The text of a node before NFKD: [" ".join(text.strip().split())]. *)
Definition collapse (text : str) : str :=
  Py.join (lit " ") (Py.split (Py.strip text)).

(** A word: not empty, no whitespace. *)
Definition clean_word (w : str) : Prop :=
  w <> [] /\ Forall (fun c => Py.isspace c = false) w.

(** A code point of Unicode; a [str] decoded from a file holds no
    other value. *)
Definition code_point (c : Z) : Prop := 0 <= c < 0x110000.

Definition is_code_point (c : Z) : bool := (0 <=? c) && (c <? 0x110000).

(** A lowercase hexadecimal digit, [0]-[9] or [a]-[f]. *)
Definition is_hex_digit (c : Z) : bool :=
  ((48 <=? c) && (c <=? 57)) || ((97 <=? c) && (c <=? 102)).

(** ** Sample tables *)

Definition argument (argument_id conclusion stance premise : string)
  : Argument := {|
  raw_Argument_ID := lit argument_id;
  raw_Conclusion := lit conclusion;
  raw_Stance := lit stance;
  raw_Premise := lit premise
|}.
Arguments argument (argument_id conclusion stance premise)%_string_scope.

(** Three lines, two of them with the same conclusion up to case and
    whitespace, one with a stance the mapping does not know. *)
Definition plastic_rows : list Argument :=
  [argument "A01" "We should ban plastic" "in favor of"
     "Plastic harms oceans";
   argument "D02" "Zoos are fine" "maybe" "Cats are cute. ";
   argument "E03" " we should  ban PLASTIC" "against" "cats are cute."].

(** Two conclusions, both normalized, with the same digest. *)
Definition colliding_rows : list Argument :=
  [argument "A01" "positiveaalxhukn" "in favor of" "first premise";
   argument "A02" "negativexbizdbdw" "against" "second premise"].

(** Two lines with one conclusion; the [Argument ID] field of the
    second is empty in the file. *)
Definition missing_id_lines : list Line :=
  [line_of (argument "A01" "Zoos are fine" "against" "first premise");
   {| line_Argument_ID := NaN;
      line_Conclusion := Str (lit "Zoos are fine");
      line_Stance := Str (lit "against");
      line_Premise := Str (lit "second premise") |}].


(** The number of distinct elements of a list of texts. *)
Definition distinct (l : list str) : nat := length (nodup str_dec l).

(** ** Python strings: splitting, joining, stripping *)

(** Every line of a sample table has an [Argument ID]. *)
Ltac sample_ids := repeat constructor; discriminate.

Lemma lit_empty : lit "" = [].
Proof. reflexivity. Qed.

Lemma lit_space : lit " " = [32].
Proof. reflexivity. Qed.

Lemma str_eqb_eq (a b : str) : str_eqb a b = true <-> a = b.
Proof.
  unfold str_eqb. destruct (list_eq_dec Z.eq_dec a b); split; intros H;
    congruence.
Qed.

Lemma str_eqb_refl (a : str) : str_eqb a a = true.
Proof. now apply str_eqb_eq. Qed.

Lemma str_eqb_neq (a b : str) : str_eqb a b = false <-> a <> b.
Proof.
  unfold str_eqb. destruct (list_eq_dec Z.eq_dec a b); split; intros H;
    congruence.
Qed.

Lemma join_empty (words : list str) : Py.join [] words = concat words.
Proof.
  induction words as [| w ws IH]; [reflexivity |].
  destruct ws as [| w' ws].
  - cbn. now rewrite app_nil_r.
  - change (Py.join [] (w :: w' :: ws)) with (w ++ [] ++ Py.join [] (w' :: ws)).
    rewrite IH. reflexivity.
Qed.

Lemma concat_emit (word : str) (rest : list str) :
  concat (Py.emit word rest) = word ++ concat rest.
Proof. destruct word; reflexivity. Qed.

Lemma concat_split_from (s word : str) :
  concat (Py.split_from word s) = word ++ remove_whitespace s.
Proof.
  revert word. induction s as [| c s IH]; intros word; cbn.
  - now rewrite concat_emit.
  - destruct (Py.isspace c); cbn.
    + now rewrite concat_emit, IH.
    + now rewrite IH, <- app_assoc.
Qed.

(** Splitting on whitespace and joining on the empty string removes the
    whitespace, and nothing else. *)
Lemma join_split (s : str) :
  Py.join (lit "") (Py.split s) = remove_whitespace s.
Proof.
  rewrite lit_empty, join_empty. unfold Py.split.
  now rewrite concat_split_from.
Qed.

Lemma remove_whitespace_app (a b : str) :
  remove_whitespace (a ++ b) = remove_whitespace a ++ remove_whitespace b.
Proof. apply filter_app. Qed.

Lemma remove_whitespace_spaces (r : str) :
  whitespace r -> remove_whitespace r = [].
Proof.
  induction 1 as [| c r Hc _ IH]; [reflexivity |].
  cbn. now rewrite Hc.
Qed.

Lemma no_space_remove_whitespace (s : str) :
  Forall (fun c => Py.isspace c = false) (remove_whitespace s).
Proof.
  apply Forall_forall. intros c Hc. apply filter_In in Hc.
  destruct Hc as [_ Hc]. now destruct (Py.isspace c).
Qed.

Lemma remove_whitespace_no_space (s : str) :
  Forall (fun c => Py.isspace c = false) s -> remove_whitespace s = s.
Proof.
  unfold remove_whitespace.
  induction 1 as [| c s Hc _ IH]; [reflexivity |].
  cbn. rewrite Hc. cbn. now f_equal.
Qed.

Lemma lstrip_split (s : str) :
  exists l, whitespace l /\ s = l ++ Py.lstrip s.
Proof.
  induction s as [| c s [l [Hl IH]]].
  - exists []. split; [constructor | reflexivity].
  - cbn. destruct (Py.isspace c) eqn:Hc.
    + exists (c :: l). split; [now constructor |]. cbn. now rewrite <- IH.
    + exists []. split; [constructor | reflexivity].
Qed.

Lemma whitespace_rev (r : str) : whitespace r -> whitespace (rev r).
Proof. apply Forall_rev. Qed.

Lemma rstrip_split (s : str) :
  exists r, whitespace r /\ s = Py.rstrip s ++ r.
Proof.
  unfold Py.rstrip. destruct (lstrip_split (rev s)) as [l [Hl E]].
  exists (rev l). split; [now apply whitespace_rev |].
  rewrite <- rev_app_distr, <- E. now rewrite rev_involutive.
Qed.

(** Stripping removes a run of whitespace at each end. *)
Lemma strip_split (s : str) :
  exists l r, whitespace l /\ whitespace r /\ s = l ++ Py.strip s ++ r.
Proof.
  destruct (lstrip_split s) as [l [Hl El]].
  destruct (rstrip_split (Py.lstrip s)) as [r [Hr Er]].
  exists l, r. repeat split; trivial.
  unfold Py.strip. now rewrite <- Er.
Qed.

Lemma lstrip_no_space (s : str) :
  Forall (fun c => Py.isspace c = false) s -> Py.lstrip s = s.
Proof. destruct 1 as [| c s Hc _]; cbn; [| rewrite Hc]; reflexivity. Qed.

Lemma strip_no_space (s : str) :
  Forall (fun c => Py.isspace c = false) s -> Py.strip s = s.
Proof.
  intros H. unfold Py.strip, Py.rstrip.
  rewrite (lstrip_no_space s H), lstrip_no_space.
  - apply rev_involutive.
  - now apply Forall_rev.
Qed.

Lemma strip_spaces (r : str) : whitespace r -> Py.strip r = [].
Proof.
  intros H. unfold Py.strip.
  assert (E : Py.lstrip r = []).
  { induction H as [| c r Hc _ IH]; cbn; [| rewrite Hc]; trivial. }
  now rewrite E.
Qed.

(** ** Lowercasing and whitespace *)

Lemma sigma_not_space : Py.isspace CAPITAL_SIGMA = false.
Proof. reflexivity. Qed.

Lemma space_not_sigma (w : Z) :
  Py.isspace w = true -> (w =? CAPITAL_SIGMA) = false.
Proof.
  intros Hw. apply Z.eqb_neq. intros ->.
  rewrite sigma_not_space in Hw. discriminate.
Qed.

Section CaseChange.
Context {U : UnicodeData}.

Lemma next_cased_same (a b : str) :
  Forall2 same_letter a b -> next_cased a = next_cased b.
Proof.
  induction 1 as [| c d a b [_ [Ec [Ei _]]] _ IH]; [reflexivity |].
  cbn. now rewrite Ec, Ei, IH.
Qed.

Lemma lower_from_same (a b : str) :
  Forall2 same_letter a b ->
  forall before, lower_from before a = lower_from before b.
Proof.
  induction 1 as [| c d a b [El [Ec [Ei Es]]] F IH]; intros before;
    [reflexivity |].
  cbn. rewrite <- Ec, <- Ei, (IH _), (next_cased_same a b F).
  f_equal. destruct (Z.eqb_spec c CAPITAL_SIGMA) as [Hc | Hc].
  - apply Es in Hc. subst d. now rewrite Z.eqb_refl.
  - destruct (Z.eqb_spec d CAPITAL_SIGMA) as [Hd | Hd]; [| exact El].
    apply Es in Hd. contradiction.
Qed.

(** Changing the case of letters character by character gives a
    variant. *)
Lemma case_change_variant (a b : str) :
  Forall2 same_letter a b -> variant a b.
Proof.
  intros F. apply variant_case. unfold lower. now apply lower_from_same.
Qed.

End CaseChange.

Section LowerFacts.
Context {U : UnicodeData} {L : UnicodeLaws U}.

Lemma lower_from_space (before : bool) (w : Z) (s : str) :
  Py.isspace w = true ->
  lower_from before (w :: s) = w :: lower_from false s.
Proof.
  intros Hw. cbn.
  rewrite (space_not_sigma w Hw), (space_lower w Hw).
  now rewrite (space_not_ignorable w Hw), (space_not_cased w Hw).
Qed.

Lemma next_cased_app_space (a b : str) (w : Z) :
  Py.isspace w = true -> next_cased (a ++ w :: b) = next_cased a.
Proof.
  intros Hw. induction a as [| c a IH]; cbn.
  - now rewrite (space_not_ignorable w Hw), (space_not_cased w Hw).
  - now rewrite IH.
Qed.

(** A whitespace character cuts the text in two parts that are
    lowercased independently: the context of a capital sigma never
    reaches across it. *)
Lemma lower_from_app_space (before : bool) (a b : str) (w : Z) :
  Py.isspace w = true ->
  lower_from before (a ++ w :: b)
  = lower_from before a ++ w :: lower_from false b.
Proof.
  intros Hw. revert before. induction a as [| c a IH]; intros before.
  - now apply lower_from_space.
  - cbn [app lower_from].
    rewrite (next_cased_app_space a b w Hw), IH.
    now rewrite <- app_assoc.
Qed.

Lemma lower_from_spaces (before : bool) (r : str) :
  whitespace r -> lower_from before r = r.
Proof.
  intros H. revert before.
  induction H as [| w r Hw _ IH]; intros before; [reflexivity |].
  now rewrite (lower_from_space _ _ _ Hw), IH.
Qed.

Lemma lower_from_spaces_app (before : bool) (r s : str) :
  whitespace r -> r <> [] ->
  lower_from before (r ++ s) = r ++ lower s.
Proof.
  intros H. revert before.
  induction H as [| w r Hw Hr IH]; intros before Hne; [congruence |].
  cbn [app]. rewrite (lower_from_space _ _ _ Hw). f_equal.
  destruct r as [| w' r]; [reflexivity |].
  apply IH. discriminate.
Qed.

Lemma space_removed (w : Z) (s : str) :
  Py.isspace w = true -> remove_whitespace (w :: s) = remove_whitespace s.
Proof. intros Hw. unfold remove_whitespace. cbn. now rewrite Hw. Qed.

Lemma letters_app_space (a b : str) (w : Z) :
  Py.isspace w = true -> letters (a ++ w :: b) = letters a ++ letters b.
Proof.
  intros Hw. unfold letters, lower.
  rewrite (lower_from_app_space _ _ _ _ Hw), remove_whitespace_app.
  now rewrite (space_removed _ _ Hw).
Qed.

Lemma letters_spaces (r : str) : whitespace r -> letters r = [].
Proof.
  intros H. unfold letters, lower. rewrite (lower_from_spaces _ _ H).
  now apply remove_whitespace_spaces.
Qed.

Lemma letters_nil : letters [] = [].
Proof. reflexivity. Qed.

(** A non-empty run of whitespace, wherever it stands and however long
    it is, leaves no trace in the letters. *)
Lemma letters_run (s1 r s2 : str) :
  whitespace r -> r <> [] -> letters (s1 ++ r ++ s2) = letters s1 ++ letters s2.
Proof.
  intros H Hne. destruct H as [| w r Hw Hr]; [congruence |].
  cbn [app]. rewrite (letters_app_space _ _ _ Hw). f_equal.
  clear Hne. induction Hr as [| w' r Hw' _ IH]; [reflexivity |].
  cbn [app]. change (w' :: r ++ s2) with ([] ++ w' :: r ++ s2).
  now rewrite (letters_app_space _ _ _ Hw'), letters_nil.
Qed.

Lemma letters_trim (l s r : str) :
  whitespace l -> whitespace r -> letters (l ++ s ++ r) = letters s.
Proof.
  intros Hl Hr.
  assert (E1 : forall x, letters (l ++ x) = letters x).
  { intros x. destruct l as [| w l]; [reflexivity |].
    rewrite <- (app_nil_l ((w :: l) ++ x)), letters_run; trivial.
    discriminate. }
  assert (E2 : letters (s ++ r) = letters s).
  { destruct r as [| w r]; [now rewrite app_nil_r |].
    rewrite <- (app_nil_r ((w :: r))), letters_run, letters_nil; trivial.
    - apply app_nil_r.
    - discriminate. }
  now rewrite E1, E2.
Qed.

Lemma letters_strip (s : str) : letters (Py.strip s) = letters s.
Proof.
  destruct (strip_split s) as [l [r [Hl [Hr E]]]].
  rewrite E at 2. symmetry. now apply letters_trim.
Qed.

(** The text that [hash_text] hashes, in the words of the
    specification. *)
Lemma spec_normalize_letters (s : str) : spec_normalize s = letters s.
Proof. apply letters_strip. Qed.


Lemma lower_from_is_stable (before : bool) (s : str) :
  Forall stable (lower_from before s).
Proof.
  revert before. induction s as [| c s IH]; intros before; cbn.
  - constructor.
  - apply Forall_app. split; [| apply IH].
    destruct (c =? CAPITAL_SIGMA).
    + constructor; [| constructor].
      destruct sigma_stable as [Es Ef].
      destruct (before && negb (next_cased s)); split; trivial;
        unfold FINAL_SIGMA, SMALL_SIGMA, CAPITAL_SIGMA; lia.
    + apply Forall_forall. intros d Hd. exact (lower_stable c d Hd).
Qed.

Lemma lower_from_stable (before : bool) (s : str) :
  Forall stable s -> lower_from before s = s.
Proof.
  intros H. revert before.
  induction H as [| d s [Ed Hd] _ IH]; intros before; [reflexivity |].
  cbn. apply Z.eqb_neq in Hd. rewrite Hd, Ed, IH. reflexivity.
Qed.

(** Normalizing twice is normalizing once. *)
Lemma spec_normalize_idempotent (s : str) :
  spec_normalize (spec_normalize s) = spec_normalize s.
Proof.
  unfold spec_normalize at 1.
  assert (Hn : Forall (fun c => Py.isspace c = false) (spec_normalize s))
    by apply no_space_remove_whitespace.
  rewrite (strip_no_space _ Hn).
  assert (Hs : Forall stable (spec_normalize s)).
  { unfold spec_normalize, remove_whitespace.
    apply Forall_forall. intros d Hd. apply filter_In in Hd.
    destruct Hd as [Hd _].
    pose proof (lower_from_is_stable false (Py.strip s)) as F.
    rewrite Forall_forall in F. now apply F. }
  unfold lower. rewrite (lower_from_stable _ _ Hs).
  now apply remove_whitespace_no_space.
Qed.

End LowerFacts.

(** What [hash_text] hashes is the text trimmed, lowercased and freed
    of its whitespace. *)
Lemma hash_text_spec {U : UnicodeData} (text : str) :
  hash_text text = XXH64.xxh64_hexdigest (spec_normalize text) 42.
Proof. unfold hash_text. cbv zeta. now rewrite join_split. Qed.

Lemma basic_laws : UnicodeLaws basic_data.
Proof.
  split; cbn; unfold ascii_isupper, ascii_islower, is_sigma,
    CAPITAL_SIGMA, SMALL_SIGMA, FINAL_SIGMA.
  - intros c Hc. unfold Py.isspace in Hc.
    destruct ((65 <=? c) && (c <=? 90)) eqn:E; [exfalso; lia |].
    destruct (c =? 931) eqn:E'; [exfalso; lia | reflexivity].
  - intros c Hc. unfold Py.isspace in Hc. lia.
  - intros c Hc. unfold Py.isspace in Hc. lia.
  - intros c d.
    destruct ((65 <=? c) && (c <=? 90)) eqn:E;
      [| destruct (c =? 931) eqn:E']; intros [<- | []].
    + assert (H : (65 <=? c + 32) && (c + 32 <=? 90) = false) by lia.
      assert (H' : (c + 32 =? 931) = false) by lia.
      rewrite H, H'. split; [reflexivity | lia].
    + cbn. split; [reflexivity | lia].
    + rewrite E, E'. split; [reflexivity | lia].
  - split; reflexivity.
Qed.

(** ** The digest *)

Lemma wrap_range (x : Z) : 0 <= XXH64.wrap x < 2 ^ 64.
Proof. unfold XXH64.wrap. apply Z.mod_pos_bound. lia. Qed.

Lemma lxor_range (a b : Z) :
  0 <= a < 2 ^ 64 -> 0 <= b < 2 ^ 64 -> 0 <= Z.lxor a b < 2 ^ 64.
Proof.
  intros [Ha Ha'] [Hb Hb'].
  assert (H0 : 0 <= Z.lxor a b) by now apply Z.lxor_nonneg.
  split; [exact H0 |].
  destruct (Z.eq_dec (Z.lxor a b) 0) as [E | E]; [rewrite E; lia |].
  apply Z.log2_lt_pow2; [lia |].
  pose proof (Z.log2_lxor a b Ha Hb) as Hl.
  assert (La : Z.log2 a < 64).
  { destruct (Z.eq_dec a 0) as [-> | Na]; [cbn; lia |].
    apply Z.log2_lt_pow2; lia. }
  assert (Lb : Z.log2 b < 64).
  { destruct (Z.eq_dec b 0) as [-> | Nb]; [cbn; lia |].
    apply Z.log2_lt_pow2; lia. }
  lia.
Qed.

Lemma shiftr_range (h k : Z) :
  0 <= k -> 0 <= h < 2 ^ 64 -> 0 <= Z.shiftr h k < 2 ^ 64.
Proof.
  intros Hk [H0 H1]. rewrite Z.shiftr_div_pow2 by trivial.
  assert (P : 0 < 2 ^ k) by (apply Z.pow_pos_nonneg; lia).
  split; [apply Z.div_pos; lia |].
  apply Z.le_lt_trans with h; [| trivial].
  apply Z.div_le_upper_bound; nia.
Qed.

Lemma avalanche_range (h : Z) : 0 <= XXH64.avalanche h < 2 ^ 64.
Proof.
  unfold XXH64.avalanche. cbv zeta.
  apply lxor_range; [apply wrap_range |].
  apply shiftr_range; [lia | apply wrap_range].
Qed.

(** The hash is a 64-bit word. *)
Lemma xxh64_range (input : list Z) (seed : Z) :
  0 <= XXH64.xxh64 input seed < 2 ^ 64.
Proof.
  unfold XXH64.xxh64. cbv zeta.
  repeat match goal with
         | |- context [let '(_, _) := ?x in _] => destruct x
         end.
  apply avalanche_range.
Qed.

Lemma hex_digit_inj (x y : Z) :
  0 <= x < 16 -> 0 <= y < 16 ->
  XXH64.hex_digit x = XXH64.hex_digit y -> x = y.
Proof.
  unfold XXH64.hex_digit. intros Hx Hy.
  destruct (x <? 10) eqn:Ex, (y <? 10) eqn:Ey; lia.
Qed.

Lemma hex_of_length (n : nat) (x : Z) : length (XXH64.hex_of n x) = n.
Proof.
  revert x. induction n as [| n IH]; intros x; cbn; [reflexivity |].
  rewrite length_app, IH. cbn. lia.
Qed.

Lemma hex_of_inj (n : nat) (x y : Z) :
  XXH64.hex_of n x = XXH64.hex_of n y ->
  x mod 16 ^ Z.of_nat n = y mod 16 ^ Z.of_nat n.
Proof.
  revert x y. induction n as [| n IH]; intros x y E.
  - cbn. now rewrite !Z.mod_1_r.
  - cbn [XXH64.hex_of] in E. apply app_inj_tail in E. destruct E as [E1 E2].
    apply IH in E1. apply hex_digit_inj in E2;
      try (apply Z.mod_pos_bound; lia).
    rewrite Nat2Z.inj_succ, Z.pow_succ_r by lia.
    assert (P : 0 < 16 ^ Z.of_nat n) by (apply Z.pow_pos_nonneg; lia).
    rewrite !Z.rem_mul_r by lia. now rewrite E1, E2.
Qed.

(** Sixteen hexadecimal digits tell two 64-bit words apart. *)
Lemma hex16_inj (x y : Z) :
  0 <= x < 2 ^ 64 -> 0 <= y < 2 ^ 64 ->
  XXH64.hex_of 16 x = XXH64.hex_of 16 y -> x = y.
Proof.
  intros Hx Hy E. apply hex_of_inj in E.
  change (16 ^ Z.of_nat 16) with (2 ^ 64) in E.
  now rewrite !Z.mod_small in E.
Qed.

Lemma hexdigest_eq_iff (a b : str) (seed : Z) :
  XXH64.xxh64_hexdigest a seed = XXH64.xxh64_hexdigest b seed
  <-> XXH64.xxh64 (XXH64.utf8_encode a) seed
      = XXH64.xxh64 (XXH64.utf8_encode b) seed.
Proof.
  unfold XXH64.xxh64_hexdigest. split; intros E.
  - apply hex16_inj; trivial; apply xxh64_range.
  - now rewrite E.
Qed.

(** ** The loops of XXH64 run to their end

    With the fuel [xxh64] gives them, the length of the input, the
    stripe loop stops on fewer than 32 bytes and the 8-byte loop on
    fewer than 8. *)

Lemma stripes_remainder (fuel : nat) (v : Z * Z * Z * Z) (p : list Z) :
  (length p <= 32 * fuel)%nat ->
  (length (snd (XXH64.stripes fuel v p)) < 32)%nat
  /\ (length (snd (XXH64.stripes fuel v p)) <= length p)%nat.
Proof.
  revert v p. induction fuel as [| fuel IH]; intros v p Hlen.
  - cbn. lia.
  - cbn [XXH64.stripes]. destruct (32 <=? length p)%nat eqn:E.
    + destruct v as [[[v1 v2] v3] v4].
      apply Nat.leb_le in E.
      assert (Hs : length (skipn 32 p) = (length p - 32)%nat)
        by apply length_skipn.
      match goal with
      | |- context [XXH64.stripes fuel ?v' (skipn 32 p)] =>
          destruct (IH v' (skipn 32 p)) as [H1 H2]; [lia |]
      end.
      split; lia.
    + apply Nat.leb_gt in E. cbn. lia.
Qed.

Lemma tail8_remainder (fuel : nat) (h : Z) (p : list Z) :
  (length p <= 8 * fuel)%nat ->
  (length (snd (XXH64.tail8 fuel h p)) < 8)%nat.
Proof.
  revert h p. induction fuel as [| fuel IH]; intros h p Hlen.
  - cbn. lia.
  - cbn [XXH64.tail8]. destruct (8 <=? length p)%nat eqn:E.
    + apply Nat.leb_le in E. apply IH. rewrite length_skipn. lia.
    + apply Nat.leb_gt in E. cbn. lia.
Qed.

(** ** The order of the keys *)

Lemma str_ltb_irrefl (a : str) : str_ltb a a = false.
Proof.
  induction a as [| x a IH]; [reflexivity |].
  cbn. rewrite IH, Z.ltb_irrefl. now rewrite andb_false_r.
Qed.

Lemma str_lt_trans (a b c : str) : str_lt a b -> str_lt b c -> str_lt a c.
Proof.
  unfold str_lt. revert b c.
  induction a as [| x a IH]; intros [| y b] [| z c]; cbn; try congruence.
  intros H1 H2.
  apply orb_true_iff in H1. apply orb_true_iff in H2. apply orb_true_iff.
  destruct H1 as [H1 | H1], H2 as [H2 | H2];
    try apply andb_true_iff in H1; try apply andb_true_iff in H2.
  - left. lia.
  - left. lia.
  - left. lia.
  - right. destruct H1 as [E1 L1], H2 as [E2 L2].
    apply andb_true_iff. split; [lia | now apply (IH b c)].
Qed.

Lemma str_ltb_total (a b : str) :
  a <> b -> str_ltb a b = false -> str_ltb b a = true.
Proof.
  revert b. induction a as [| x a IH]; intros [| y b] N H; cbn in *;
    try congruence.
  apply orb_false_iff in H. destruct H as [H1 H2].
  apply orb_true_iff.
  destruct (Z.eq_dec x y) as [-> | Nxy]; [right | left; lia].
  rewrite Z.eqb_refl in *. cbn in *. apply IH; congruence.
Qed.

Lemma str_lt_neq (a b : str) : str_lt a b -> a <> b.
Proof.
  unfold str_lt. intros H ->. rewrite str_ltb_irrefl in H. discriminate.
Qed.

Lemma insert_key_In (k x : str) (keys : list str) :
  In x (insert_key k keys) <-> x = k \/ In x keys.
Proof.
  induction keys as [| k' keys IH]; cbn.
  - intuition.
  - destruct (str_eqb k k') eqn:E.
    + apply str_eqb_eq in E. subst k'. cbn. intuition.
    + destruct (str_ltb k k'); cbn; [intuition |].
      rewrite IH. intuition.
Qed.

Lemma insert_key_sorted (k : str) (keys : list str) :
  StronglySorted str_lt keys -> StronglySorted str_lt (insert_key k keys).
Proof.
  induction 1 as [| k' keys S IH F]; cbn.
  - repeat constructor.
  - destruct (str_eqb k k') eqn:E; [now constructor |].
    apply str_eqb_neq in E.
    destruct (str_ltb k k') eqn:Lt.
    + constructor; [now constructor |].
      constructor; [exact Lt |].
      rewrite Forall_forall in *. intros x Hx.
      apply str_lt_trans with k'; [exact Lt | now apply F].
    + constructor; [exact IH |].
      apply Forall_forall. intros x Hx. apply insert_key_In in Hx.
      destruct Hx as [-> | Hx].
      * apply str_ltb_total; congruence.
      * rewrite Forall_forall in F. now apply F.
Qed.

Lemma sorted_keys_In (x : str) (keys : list str) :
  In x (sorted_keys keys) <-> In x keys.
Proof.
  induction keys as [| k keys IH]; cbn; [tauto |].
  rewrite insert_key_In, IH. intuition.
Qed.

Lemma sorted_keys_sorted (keys : list str) :
  StronglySorted str_lt (sorted_keys keys).
Proof.
  induction keys as [| k keys IH]; cbn; [constructor |].
  now apply insert_key_sorted.
Qed.

Lemma sorted_NoDup (keys : list str) :
  StronglySorted str_lt keys -> NoDup keys.
Proof.
  induction 1 as [| k keys S IH F]; constructor; [| exact IH].
  intros Hin. rewrite Forall_forall in F.
  exact (str_lt_neq k k (F k Hin) eq_refl).
Qed.

Lemma sorted_keys_NoDup (keys : list str) : NoDup (sorted_keys keys).
Proof. apply sorted_NoDup, sorted_keys_sorted. Qed.

(** The groups have as many keys as the column has distinct values. *)
Lemma sorted_keys_length (keys : list str) :
  length (sorted_keys keys) = distinct keys.
Proof.
  unfold distinct. apply Permutation_length, NoDup_Permutation.
  - apply sorted_keys_NoDup.
  - apply NoDup_nodup.
  - intros x. rewrite sorted_keys_In, nodup_In. tauto.
Qed.

(** ** Groups *)

Lemma groupby_keys (column : Row -> str) (df : DataFrame) :
  map fst (groupby column df) = sorted_keys (map column df).
Proof.
  unfold groupby. rewrite map_map. cbn. apply map_id.
Qed.

Lemma groupby_In (column : Row -> str) (df : DataFrame) (k : str)
  (g : DataFrame) :
  In (k, g) (groupby column df) <->
  In k (map column df) /\ g = filter (fun r => str_eqb (column r) k) df.
Proof.
  unfold groupby. split.
  - intros H. apply in_map_iff in H. destruct H as [k' [E Hk]].
    inversion E; subst. split; [| reflexivity].
    now apply sorted_keys_In.
  - intros [Hk ->]. apply in_map_iff. exists k. split; [reflexivity |].
    now apply sorted_keys_In.
Qed.

(** No group is empty. *)
Lemma groupby_nonempty (column : Row -> str) (df : DataFrame) (k : str)
  (g : DataFrame) :
  In (k, g) (groupby column df) -> g <> [].
Proof.
  intros H. apply groupby_In in H. destruct H as [Hk ->].
  apply in_map_iff in Hk. destruct Hk as [r [E Hr]].
  intros N. assert (Hin : In r (filter (fun r => str_eqb (column r) k) df)).
  { apply filter_In. split; [exact Hr |]. now apply str_eqb_eq. }
  rewrite N in Hin. destruct Hin.
Qed.

Lemma filter_head {A} (f : A -> bool) (x : A) (l : list A) :
  filter f (x :: l) = if f x then x :: filter f l else filter f l.
Proof. reflexivity. Qed.

Lemma filter_other_keys {R} (column : R -> str) (r : R) (df : list R)
  (keys : list str) :
  ~ In (column r) keys ->
  flat_map (fun k => filter (fun r0 => str_eqb (column r0) k) (r :: df)) keys
  = flat_map (fun k => filter (fun r0 => str_eqb (column r0) k) df) keys.
Proof.
  induction keys as [| k keys IH]; intros Hn; [reflexivity |].
  cbn [flat_map]. rewrite IH by (intros H; apply Hn; now right).
  f_equal. rewrite filter_head.
  assert (Ek : str_eqb (column r) k = false).
  { apply str_eqb_neq. intros E. apply Hn. now left. }
  now rewrite Ek.
Qed.

(** The groups share out the rows of the frame. *)
Lemma filter_key_length {R} (column : R -> str) (df : list R)
  (keys : list str) :
  NoDup keys -> (forall r, In r df -> In (column r) keys) ->
  length (flat_map (fun k => filter (fun r => str_eqb (column r) k) df) keys)
  = length df.
Proof.
  intros ND. induction df as [| r df IH]; intros Hcov.
  - clear. induction keys as [| k keys IHk]; cbn; trivial.
  - cbn [length]. rewrite <- IH by (intros; apply Hcov; now right).
    assert (Hr : In (column r) keys) by (apply Hcov; now left).
    clear IH Hcov. revert ND Hr.
    induction keys as [| k keys IHk]; intros ND Hr; [destruct Hr |].
    inversion ND as [| ? ? Hnot ND']; subst.
    cbn [flat_map]. rewrite !length_app, filter_head.
    destruct (str_eqb (column r) k) eqn:E.
    + apply str_eqb_eq in E. subst k. cbn [length].
      rewrite (filter_other_keys column r df keys Hnot). lia.
    + destruct Hr as [-> | Hr]; [now rewrite str_eqb_refl in E |].
      rewrite (IHk ND' Hr). lia.
Qed.

(** ** Running the last cell *)

Lemma getitem_first (s : str) :
  Py.getitem s 0
  = match s with [] => inl Py.IndexError | c :: _ => inr [c] end.
Proof.
  destruct s as [| c s]; [reflexivity |].
  unfold Py.getitem. cbn [length]. change (0 <? 0) with false. cbv iota.
  assert (H : (0 <=? 0) && (0 <? Z.of_nat (S (length s))) = true) by lia.
  rewrite H. reflexivity.
Qed.

Lemma print_all_nil (fh : File) : print_all [] fh = (inr tt, fh).
Proof. unfold print_all. cbn. now rewrite app_nil_r. Qed.

Lemma outcome_app (a b : list (Py.exn + Node)) :
  outcome (a ++ b)
  = match outcome a with inl e => inl e | inr _ => outcome b end.
Proof. induction a as [| [e | n] a IH]; cbn; trivial. Qed.

Lemma printed_app (a b : list (Py.exn + Node)) :
  printed (a ++ b)
  = printed a ++ match outcome a with inl _ => [] | inr _ => printed b end.
Proof.
  induction a as [| [e | n] a IH]; cbn; trivial. now rewrite IH.
Qed.

Lemma print_all_app (a b : list (Py.exn + Node)) (fh : File) :
  print_all (a ++ b) fh = bind (print_all a) (fun _ => print_all b) fh.
Proof.
  unfold bind, print_all. rewrite outcome_app, printed_app.
  destruct (outcome a); [now rewrite app_nil_r | now rewrite app_assoc].
Qed.

Lemma flat_map_singleton {A B} (f : A -> B) (l : list A) :
  flat_map (fun x => [f x]) l = map f l.
Proof. induction l as [| x l IH]; cbn; congruence. Qed.

(** A loop whose body prints a list of attempted nodes prints them all,
    one iteration after the other, up to the first exception. *)
Lemma for_each_print_all {A} (l : list A) (body : A -> M unit)
  (f : A -> list (Py.exn + Node)) :
  (forall x fh, body x fh = print_all (f x) fh) ->
  forall fh, for_each l body fh = print_all (flat_map f l) fh.
Proof.
  intros Hbody. induction l as [| x l IH]; intros fh.
  - cbn. now rewrite print_all_nil.
  - cbn [for_each flat_map]. rewrite print_all_app.
    unfold bind. rewrite Hbody.
    destruct (print_all (f x) fh) as [[e | []] fh']; [reflexivity |].
    apply IH.
Qed.

Section Run.
Context {U : UnicodeData}.

Lemma try_premise_node_eq (key : str) (row : Row) :
  try_premise_node key row
  = match Argument_ID row with
    | [] => inl Py.IndexError
    | _ :: _ => inr (premise_node_of key row)
    end.
Proof.
  unfold try_premise_node, premise_node, premise_node_of, bind, lift, ret.
  rewrite getitem_first. now destruct (Argument_ID row).
Qed.

Lemma try_conclusion_node_eq (key : str) (df : DataFrame) :
  try_conclusion_node key df
  = match df with
    | [] => inl Py.IndexError
    | row :: _ =>
        match Argument_ID row with
        | [] => inl Py.IndexError
        | _ :: _ => inr (position_node key row)
        end
    end.
Proof.
  unfold try_conclusion_node, conclusion_node, position_node, bind, lift,
    ret, iloc.
  destruct df as [| row df]; [reflexivity |]. cbn [nth_error].
  rewrite getitem_first. now destruct (Argument_ID row).
Qed.

Lemma premise_node_run (key : str) (row : Row) (fh : File) :
  premise_node key row fh = (try_premise_node key row, fh).
Proof.
  unfold try_premise_node, premise_node, bind, lift, ret.
  now destruct (Py.getitem (Argument_ID row) 0).
Qed.

Lemma conclusion_node_run (key : str) (df : DataFrame) (fh : File) :
  conclusion_node key df fh = (try_conclusion_node key df, fh).
Proof.
  unfold try_conclusion_node, conclusion_node, bind, lift, ret.
  destruct (iloc df 0 Conclusion); [reflexivity |].
  destruct (iloc df 0 Argument_ID) as [| a]; [reflexivity |].
  now destruct (Py.getitem a 0).
Qed.

Lemma print_one (r : Py.exn + Node) (m : M Node) (fh : File) :
  m fh = (r, fh) ->
  bind m (fun node => print node) fh = print_all [r] fh.
Proof.
  intros E. unfold bind, print_all, print. rewrite E.
  destruct r; cbn; [now rewrite app_nil_r | reflexivity].
Qed.

Lemma premise_loop_run (key : str) (group : DataFrame) (fh : File) :
  for_each group
    (fun premise => (node <- premise_node key premise ;; print node)%py) fh
  = print_all (map (try_premise_node key) group) fh.
Proof.
  rewrite <- flat_map_singleton. apply for_each_print_all.
  intros row fh'. apply print_one, premise_node_run.
Qed.

Lemma group_run (key : str) (group : DataFrame) (fh : File) :
  (node <- conclusion_node key group ;;
   print node ;;;
   for_each group
     (fun premise => node <- premise_node key premise ;; print node))%py fh
  = print_all (group_attempts (key, group)) fh.
Proof.
  unfold group_attempts. cbn [fst snd].
  change (?x :: ?l) with ([x] ++ l). rewrite print_all_app.
  unfold bind. rewrite conclusion_node_run.
  destruct (try_conclusion_node key group) as [e | node].
  - unfold print_all. cbn [outcome printed]. now rewrite app_nil_r.
  - unfold print_all at 1. cbn [outcome printed]. unfold print.
    apply premise_loop_run.
Qed.

(** What a run of the last cell returns, and the file it leaves. *)
Lemma save_dataset_run (df : DataFrame) (old : File) :
  save_dataset df old
  = (outcome (attempts (groupby conclusion_id df)),
     printed (attempts (groupby conclusion_id df))).
Proof.
  unfold save_dataset, bind at 1, open_wt.
  rewrite (for_each_print_all _ _ group_attempts); [reflexivity |].
  intros [key group] fh. apply group_run.
Qed.

End Run.

(** ** The lines of the file *)

Section Output.
Context {U : UnicodeData}.

Lemma premises_ok (key : str) (rows : DataFrame) :
  Forall (fun r => Argument_ID r <> []) rows ->
  outcome (map (try_premise_node key) rows) = inr tt
  /\ printed (map (try_premise_node key) rows)
     = map (premise_node_of key) rows.
Proof.
  induction 1 as [| r rows Hr _ [IH1 IH2]]; [now split |].
  cbn [map]. rewrite try_premise_node_eq.
  destruct (Argument_ID r); [congruence |]. cbn. now rewrite IH2.
Qed.

Lemma group_ok (key : str) (group : DataFrame) :
  group <> [] -> Forall (fun r => Argument_ID r <> []) group ->
  outcome (group_attempts (key, group)) = inr tt
  /\ printed (group_attempts (key, group)) = group_nodes (key, group).
Proof.
  intros Hne Hids. destruct (premises_ok key group Hids) as [E1 E2].
  unfold group_attempts, group_nodes. cbn [fst snd].
  rewrite try_conclusion_node_eq.
  destruct group as [| r group]; [congruence |].
  inversion Hids as [| ? ? Hr _]; subst.
  destruct (Argument_ID r) eqn:E; [congruence |].
  cbn [outcome printed]. now rewrite E1, E2.
Qed.

(** When every group has rows and every row an [Argument ID], the cell
    returns and the file holds the lines of the groups, in order. *)
Lemma attempts_ok (groups : list (str * DataFrame)) :
  (forall key group, In (key, group) groups ->
     group <> [] /\ Forall (fun r => Argument_ID r <> []) group) ->
  outcome (attempts groups) = inr tt
  /\ printed (attempts groups) = flat_map group_nodes groups.
Proof.
  induction groups as [| [key group] groups IH]; intros H; [now split |].
  destruct (H key group (or_introl eq_refl)) as [Hne Hids].
  destruct (group_ok key group Hne Hids) as [E1 E2].
  destruct IH as [IH1 IH2];
    [intros k g Hin; exact (H k g (or_intror Hin)) |].
  unfold attempts in *. cbn [flat_map].
  now rewrite outcome_app, printed_app, E1, E2, IH1, IH2.
Qed.

Lemma printed_premises (key : str) (rows : DataFrame) (n : Node) :
  In n (printed (map (try_premise_node key) rows)) ->
  exists r, In r rows /\ Argument_ID r <> [] /\ n = premise_node_of key r.
Proof.
  induction rows as [| r rows IH]; cbn [map]; [intros [] |].
  rewrite try_premise_node_eq. destruct (Argument_ID r) eqn:E; [intros [] |].
  cbn [printed]. intros [<- | Hin].
  - exists r. rewrite E. repeat split; [now left | discriminate].
  - destruct (IH Hin) as [r' [H1 H2]]. exists r'. split; [now right | trivial].
Qed.

(** What a group prints: nothing, or its position node followed by
    premise nodes of its rows. *)
Lemma printed_group (key : str) (group : DataFrame) :
  printed (group_attempts (key, group)) = []
  \/ exists first_row rest,
       group = first_row :: rest /\ Argument_ID first_row <> []
       /\ printed (group_attempts (key, group))
          = position_node key first_row
            :: printed (map (try_premise_node key) group).
Proof.
  unfold group_attempts. cbn [fst snd]. rewrite try_conclusion_node_eq.
  destruct group as [| r rest]; [now left |].
  destruct (Argument_ID r) eqn:E; [now left |].
  right. exists r, rest. rewrite E. repeat split. discriminate.
Qed.

Lemma printed_attempts_In (groups : list (str * DataFrame)) (n : Node) :
  In n (printed (attempts groups)) ->
  exists key group,
    In (key, group) groups /\ In n (printed (group_attempts (key, group))).
Proof.
  induction groups as [| [key group] groups IH]; [intros [] |].
  unfold attempts in *. cbn [flat_map]. rewrite printed_app.
  intros Hin. apply in_app_or in Hin. destruct Hin as [Hin | Hin].
  - exists key, group. split; [now left | trivial].
  - destruct (outcome (group_attempts (key, group))); [destruct Hin |].
    destruct (IH Hin) as [k [g [H1 H2]]]. exists k, g.
    split; [now right | trivial].
Qed.

(** Where a line of the file comes from. *)
Lemma printed_origin (groups : list (str * DataFrame)) (n : Node) :
  In n (printed (attempts groups)) ->
  exists key group,
    In (key, group) groups
    /\ ((exists first_row rest,
           group = first_row :: rest /\ Argument_ID first_row <> []
           /\ n = position_node key first_row)
        \/ (exists r,
              In r group /\ Argument_ID r <> [] /\ n = premise_node_of key r)).
Proof.
  intros Hin. destruct (printed_attempts_In groups n Hin) as [k [g [Hg Hn]]].
  exists k, g. split; [trivial |].
  destruct (printed_group k g) as [E | [r0 [rest [Eg [Hid E]]]]].
  - rewrite E in Hn. destruct Hn.
  - rewrite E in Hn. destruct Hn as [<- | Hn].
    + left. now exists r0, rest.
    + right. now apply printed_premises.
Qed.

Lemma position_ids_app (a b : File) :
  position_ids (a ++ b) = position_ids a ++ position_ids b.
Proof. unfold position_ids. now rewrite filter_app, map_app. Qed.

Lemma position_ids_premises (key : str) (rows : DataFrame) :
  position_ids (printed (map (try_premise_node key) rows)) = [].
Proof.
  induction rows as [| r rows IH]; [reflexivity |].
  cbn [map]. rewrite try_premise_node_eq.
  destruct (Argument_ID r); [reflexivity |]. cbn [printed].
  unfold position_ids in *. cbn. exact IH.
Qed.

Lemma position_ids_group (key : str) (group : DataFrame) :
  position_ids (printed (group_attempts (key, group))) = []
  \/ position_ids (printed (group_attempts (key, group))) = [key].
Proof.
  destruct (printed_group key group) as [E | [r0 [rest [_ [_ E]]]]];
    rewrite E; [now left | right].
  change (?x :: ?l) with ([x] ++ l).
  now rewrite position_ids_app, position_ids_premises.
Qed.

(** The position ids of the file are keys of groups, each at most
    once. *)
Lemma position_ids_printed (groups : list (str * DataFrame)) :
  NoDup (map fst groups) ->
  NoDup (position_ids (printed (attempts groups)))
  /\ incl (position_ids (printed (attempts groups))) (map fst groups).
Proof.
  induction groups as [| [key group] groups IH]; intros ND.
  - split; [constructor | intros x []].
  - inversion ND as [| ? ? Hnot ND']; subst.
    destruct (IH ND') as [IH1 IH2].
    unfold attempts in *. cbn [flat_map map fst].
    rewrite printed_app, position_ids_app.
    destruct (position_ids_group key group) as [E | E]; rewrite E.
    + destruct (outcome (group_attempts (key, group))).
      * split; [constructor | intros x []].
      * cbn [app]. split; [trivial | now apply incl_tl].
    + destruct (outcome (group_attempts (key, group))).
      * split; [repeat constructor; intros [] |].
        intros x [<- | []]. now left.
      * cbn [app]. split.
        -- constructor; [| trivial]. intros Hin. apply Hnot. now apply IH2.
        -- intros x [<- | Hx]; [now left | right; now apply IH2].
Qed.

(** The position node of a premise node is in the file. *)
Lemma related_to_printed (groups : list (str * DataFrame)) (n : Node)
  (a s k sp : str) (t : option str) :
  In n (printed (attempts groups)) ->
  node_metadata n = PremiseMeta a s k sp t ->
  In k (position_ids (printed (attempts groups))).
Proof.
  induction groups as [| [key group] groups IH]; [intros [] |].
  unfold attempts in *. cbn [flat_map]. rewrite printed_app, position_ids_app.
  intros Hin Hn. apply in_or_app. apply in_app_or in Hin.
  destruct Hin as [Hin | Hin].
  - left. destruct (printed_group key group) as [E | [r0 [rest [_ [_ E]]]]];
      rewrite E in *; [destruct Hin |].
    destruct Hin as [<- | Hin]; [discriminate Hn |].
    apply printed_premises in Hin. destruct Hin as [r [_ [_ ->]]].
    cbn in Hn. inversion Hn; subst. now left.
  - right. destruct (outcome (group_attempts (key, group))); [destruct Hin |].
    now apply IH.
Qed.

End Output.

(** ** The frame *)

Lemma distinct_map_le (f : str -> str) (l : list str) :
  (distinct (map f l) <= distinct l)%nat.
Proof.
  unfold distinct.
  rewrite <- (length_map f (nodup str_dec l)).
  apply NoDup_incl_length; [apply NoDup_nodup |].
  intros y Hy. apply nodup_In, in_map_iff in Hy.
  destruct Hy as [x [<- Hx]]. apply in_map. now apply nodup_In.
Qed.

Lemma distinct_map_inj (f : str -> str) (l : list str) :
  (forall a b, In a l -> In b l -> f a = f b -> a = b) ->
  distinct (map f l) = distinct l.
Proof.
  intros Hinj. unfold distinct.
  rewrite <- (length_map f (nodup str_dec l)).
  apply Permutation_length, NoDup_Permutation.
  - apply NoDup_nodup.
  - apply NoDup_map_NoDup_ForallPairs; [| apply NoDup_nodup].
    intros a b Ha Hb. apply Hinj; now apply (nodup_In str_dec).
  - intros y. rewrite nodup_In, !in_map_iff. split.
    + intros [x [<- Hx]]. exists x. split; [trivial | now apply nodup_In].
    + intros [x [<- Hx]]. exists x. split; [trivial |].
      now apply (nodup_In str_dec).
Qed.

Section Frame.
Context {U : UnicodeData}.

Lemma dataset_In (train dev test : list Argument) (r : Row) :
  In r (dataset train dev test) ->
  exists a name, In a (train ++ dev ++ test) /\ r = add_columns name a.
Proof.
  unfold dataset. rewrite !in_app_iff, !in_map_iff.
  intros [[a [<- Ha]] | [[a [<- Ha]] | [a [<- Ha]]]];
    eexists a, _; (split; [| reflexivity]); rewrite !in_app_iff; tauto.
Qed.

Lemma dataset_has (train dev test : list Argument) (a : Argument) :
  In a (train ++ dev ++ test) ->
  exists name, In (add_columns name a) (dataset train dev test).
Proof.
  unfold dataset. rewrite !in_app_iff. intros [Ha | [Ha | Ha]].
  - exists (lit "train"). rewrite !in_app_iff. left. now apply in_map.
  - exists (lit "validation"). rewrite !in_app_iff. right. right.
    now apply in_map.
  - exists (lit "test"). rewrite !in_app_iff. right. left. now apply in_map.
Qed.

Lemma dataset_length (train dev test : list Argument) :
  length (dataset train dev test)
  = (length train + length dev + length test)%nat.
Proof. unfold dataset. rewrite !length_app, !length_map. lia. Qed.

Lemma dataset_conclusions (train dev test : list Argument) :
  map conclusion_id (dataset train dev test)
  = map hash_text (map raw_Conclusion (train ++ test ++ dev)).
Proof. unfold dataset. now rewrite !map_app, !map_map. Qed.

Lemma dataset_ids (train dev test : list Argument) :
  has_argument_ids (train ++ dev ++ test) ->
  Forall (fun r => Argument_ID r <> []) (dataset train dev test).
Proof.
  unfold has_argument_ids. rewrite !Forall_forall. intros H r Hr.
  destruct (dataset_In _ _ _ r Hr) as [a [name [Ha ->]]]. cbn. now apply H.
Qed.

(** With an [Argument ID] on every line, the notebook returns and the
    file holds the lines of the groups, in the order of the groups. *)
Lemma notebook_ok (train dev test : list Argument) (old : File) :
  has_argument_ids (train ++ dev ++ test) ->
  notebook train dev test old
  = (inr tt,
     flat_map group_nodes (groupby conclusion_id (dataset train dev test))).
Proof.
  intros H. unfold notebook. rewrite save_dataset_run.
  destruct (attempts_ok (groupby conclusion_id (dataset train dev test)))
    as [E1 E2]; [| now rewrite E1, E2].
  intros key group Hin. split; [now apply groupby_nonempty in Hin |].
  apply groupby_In in Hin. destruct Hin as [_ ->].
  apply Forall_forall. intros r Hr. apply filter_In in Hr.
  pose proof (dataset_ids _ _ _ H) as F. rewrite Forall_forall in F.
  now apply F.
Qed.

Lemma premise_nodes_count (key : str) (rows : DataFrame) :
  length (filter is_premise (map (premise_node_of key) rows)) = length rows
  /\ filter is_position (map (premise_node_of key) rows) = [].
Proof.
  induction rows as [| r rows [IH1 IH2]]; [now split |].
  cbn. now rewrite IH1, IH2.
Qed.

(** One position line per group, one premise line per row. *)
Lemma group_nodes_count (groups : list (str * DataFrame)) :
  (forall key group, In (key, group) groups -> group <> []) ->
  length (filter is_position (flat_map group_nodes groups)) = length groups
  /\ length (filter is_premise (flat_map group_nodes groups))
     = length (flat_map snd groups).
Proof.
  induction groups as [| [key group] groups IH]; intros H; [now split |].
  destruct IH as [IH1 IH2]; [intros k g Hin; exact (H k g (or_intror Hin)) |].
  pose proof (H key group (or_introl eq_refl)) as Hne.
  cbn [flat_map snd]. rewrite !filter_app, !length_app, IH1, IH2.
  unfold group_nodes. cbn [fst snd].
  destruct group as [| r rest]; [congruence |].
  destruct (premise_nodes_count key (r :: rest)) as [E1 E2].
  cbn [filter is_position is_premise position_node node_metadata].
  rewrite E1, E2. cbn [length]. split; lia.
Qed.

Lemma groupby_rows (column : Row -> str) (df : DataFrame) :
  length (flat_map snd (groupby column df)) = length df.
Proof.
  unfold groupby. rewrite flat_map_concat_map, map_map. cbn [snd].
  rewrite <- flat_map_concat_map. apply filter_key_length.
  - apply sorted_keys_NoDup.
  - intros r Hr. apply sorted_keys_In. now apply in_map.
Qed.

End Frame.

(** ** Where the lines come from *)

Section Lines.
Context {U : UnicodeData}.

Lemma remove_whitespace_join (words : list str) :
  remove_whitespace (Py.join (lit " ") words)
  = remove_whitespace (concat words).
Proof.
  rewrite lit_space. induction words as [| w ws IH]; [reflexivity |].
  destruct ws as [| w' ws].
  - cbn. now rewrite app_nil_r.
  - change (Py.join [32] (w :: w' :: ws))
      with (w ++ [32] ++ Py.join [32] (w' :: ws)).
    change (concat (w :: w' :: ws)) with (w ++ concat (w' :: ws)).
    rewrite !remove_whitespace_app, IH. reflexivity.
Qed.

Lemma remove_whitespace_strip (s : str) :
  remove_whitespace (Py.strip s) = remove_whitespace s.
Proof.
  destruct (strip_split s) as [l [r [Hl [Hr E]]]]. rewrite E at 2.
  rewrite !remove_whitespace_app.
  now rewrite (remove_whitespace_spaces l Hl),
    (remove_whitespace_spaces r Hr), app_nil_r.
Qed.

(** Collapsing the whitespace of a text keeps its other characters as
    they are, in order. *)
Lemma collapse_keeps_letters (text : str) :
  remove_whitespace (Py.join (lit " ") (Py.split (Py.strip text)))
  = remove_whitespace text.
Proof.
  rewrite remove_whitespace_join. unfold Py.split.
  rewrite concat_split_from. cbn [app].
  rewrite (remove_whitespace_no_space _ (no_space_remove_whitespace _)).
  apply remove_whitespace_strip.
Qed.

Lemma dataset_ids_of (train dev test : list Argument) (r : Row) :
  In r (dataset train dev test) ->
  conclusion_id r = hash_text (Conclusion r)
  /\ premise_id r = hash_text (Premise r)
  /\ relation r = dict_get stance_map (Stance r).
Proof.
  intros Hr. destruct (dataset_In _ _ _ r Hr) as [a [name [_ ->]]].
  now repeat split.
Qed.

(** Every line of the file is the position node of the first row of a
    group, or the premise node of a row, under the key of its group. *)
Lemma line_origin (df : DataFrame) (n : Node) :
  In n (printed (attempts (groupby conclusion_id df))) ->
  exists r,
    In r df /\ Argument_ID r <> []
    /\ (n = position_node (conclusion_id r) r
        \/ n = premise_node_of (conclusion_id r) r).
Proof.
  intros Hin. destruct (printed_origin _ n Hin) as [key [group [Hg Hn]]].
  apply groupby_In in Hg. destruct Hg as [_ Eg].
  assert (Hrow : forall r, In r group -> In r df /\ conclusion_id r = key).
  { intros r Hr. rewrite Eg in Hr. apply filter_In in Hr.
    destruct Hr as [Hr E]. now apply str_eqb_eq in E. }
  destruct Hn as [[r0 [rest [E [Hid ->]]]] | [r [Hr [Hid ->]]]].
  - destruct (Hrow r0) as [H1 H2]; [rewrite E; now left |].
    exists r0. rewrite H2. auto.
  - destruct (Hrow r Hr) as [H1 H2]. exists r. rewrite H2. auto.
Qed.

(** Every row has its premise line when nothing fails. *)
Lemma premise_line (df : DataFrame) (r : Row) :
  In r df ->
  In (premise_node_of (conclusion_id r) r)
     (flat_map group_nodes (groupby conclusion_id df)).
Proof.
  intros Hr. apply in_flat_map.
  exists (conclusion_id r,
          filter (fun r' => str_eqb (conclusion_id r') (conclusion_id r)) df).
  split.
  - apply groupby_In. split; [now apply in_map | reflexivity].
  - unfold group_nodes. cbn [fst snd].
    assert (Hin : In r (filter (fun r' => str_eqb (conclusion_id r')
                                            (conclusion_id r)) df)).
    { apply filter_In. split; [trivial | apply str_eqb_refl]. }
    destruct (filter _ df) as [| r0 rest]; [destruct Hin |].
    right. now apply in_map.
Qed.

End Lines.

(** ** The run on the frames of cells *)

Lemma series_map_ok {A B} (f : A -> Py.exn + B) (g : A -> B) (l : list A) :
  (forall x, In x l -> f x = inr (g x)) -> series_map f l = inr (map g l).
Proof.
  induction l as [| a l IH]; cbn; intros H; [reflexivity |].
  rewrite (H a (or_introl eq_refl)), IH; [reflexivity |].
  intros x Hx. apply H. now right.
Qed.

Lemma series_map_raises {A B} (f : A -> Py.exn + B) (l : list A) (e : Py.exn) :
  series_map f l = inl e -> exists x, In x l /\ f x = inl e.
Proof.
  induction l as [| a l IH]; cbn; [discriminate |].
  destruct (f a) as [e' | y] eqn:E.
  - intros H. inversion H; subst. exists a. split; [now left | exact E].
  - destruct (series_map f l) as [e' | ys]; [| discriminate].
    intros H. inversion H; subst. destruct (IH eq_refl) as [x [Hx Hf]].
    exists x. split; [now right | exact Hf].
Qed.

Lemma series_map_returns {A B} (f : A -> Py.exn + B) (l : list A)
  (ys : list B) :
  series_map f l = inr ys -> forall x, In x l -> exists y, f x = inr y.
Proof.
  revert ys. induction l as [| a l IH]; cbn; intros ys H x Hx; [destruct Hx |].
  destruct (f a) as [e | y] eqn:E; [discriminate |].
  destruct (series_map f l) as [e | ys'] eqn:S; [discriminate |].
  destruct Hx as [<- | Hx]; [now exists y | exact (IH ys' eq_refl x Hx)].
Qed.

Lemma combine_maps {A B C} (g : A -> B) (h : A -> C) (l : list A) :
  combine (combine l (map g l)) (map h l) = map (fun x => (x, g x, h x)) l.
Proof. induction l as [| a l IH]; cbn; [reflexivity | now rewrite IH]. Qed.

Lemma groupby_of_In {R} (column : R -> str) (df : list R) (k : str)
  (g : list R) :
  In (k, g) (groupby_of column df) <->
  In k (map column df) /\ g = filter (fun r => str_eqb (column r) k) df.
Proof.
  unfold groupby_of. split.
  - intros H. apply in_map_iff in H. destruct H as [k' [E Hk]].
    inversion E; subst. split; [| reflexivity].
    now apply sorted_keys_In.
  - intros [Hk ->]. apply in_map_iff. exists k. split; [reflexivity |].
    now apply sorted_keys_In.
Qed.

Lemma groupby_of_keys {R} (column : R -> str) (df : list R) :
  map fst (groupby_of column df) = sorted_keys (map column df).
Proof. unfold groupby_of. rewrite map_map. cbn. apply map_id. Qed.

Lemma groupby_of_rows {R} (column : R -> str) (df : list R) :
  length (flat_map snd (groupby_of column df)) = length df.
Proof.
  unfold groupby_of. rewrite flat_map_concat_map, map_map. cbn [snd].
  rewrite <- flat_map_concat_map. apply filter_key_length.
  - apply sorted_keys_NoDup.
  - intros r Hr. apply sorted_keys_In. now apply in_map.
Qed.

Lemma outcome_returns (l : list (Py.exn + Node)) :
  outcome l = inr tt -> forall e, ~ In (inl e) l.
Proof.
  induction l as [| [e' | n] l IH]; cbn; intros H e Hin.
  - exact Hin.
  - discriminate H.
  - destruct Hin as [Hin | Hin]; [discriminate Hin | exact (IH H e Hin)].
Qed.

Lemma printed_length (l : list (Py.exn + Node)) :
  (length (printed l) <= length l)%nat
  /\ (forall e, outcome l = inl e -> (length (printed l) < length l)%nat).
Proof.
  induction l as [| [e' | n] l [IH1 IH2]]; cbn.
  - split; [lia | discriminate].
  - split; intros; lia.
  - split; [lia |]. intros e He. specialize (IH2 e He). lia.
Qed.

Lemma outcome_raises_In (l : list (Py.exn + Node)) (e : Py.exn) :
  outcome l = inl e -> In (inl e) l.
Proof.
  induction l as [| [e' | n] l IH]; cbn; intros H.
  - discriminate H.
  - left. now inversion H.
  - right. now apply IH.
Qed.



Lemma forall_lines_order {A} (P : A -> Prop) (t d e : list A) :
  Forall P (t ++ d ++ e) <-> Forall P (t ++ e ++ d).
Proof. rewrite !Forall_app. tauto. Qed.

Section FrameFacts.
Context {U : UnicodeData}.

Lemma hash_text_of_str (c : cell) :
  (exists s, c = Str s) -> hash_text_of c = inr (hash_text (cell_text c)).
Proof. intros [s ->]. reflexivity. Qed.

Lemma hash_text_of_returns (c : cell) (y : str) :
  hash_text_of c = inr y -> exists s, c = Str s.
Proof. destruct c as [s |]; [now exists s | discriminate]. Qed.

Lemma hash_text_of_raises (c : cell) (e : Py.exn) :
  hash_text_of c = inl e -> e = Py.AttributeError.
Proof. destruct c; cbn; intros H; now inversion H. Qed.

Lemma add_id_columns_str (frame : list (Line * str)) :
  texts_are_str (map fst frame) ->
  add_id_columns frame = inr (frame_rows frame).
Proof.
  intros H. unfold texts_are_str in H. rewrite Forall_forall in H.
  unfold add_id_columns.
  rewrite (series_map_ok hash_text_of (fun c => hash_text (cell_text c))
             (map (fun x => line_Conclusion (fst x)) frame)).
  2:{ intros c Hc. apply in_map_iff in Hc. destruct Hc as [x [<- Hx]].
      apply hash_text_of_str. apply (H (fst x)). now apply in_map. }
  rewrite (series_map_ok hash_text_of (fun c => hash_text (cell_text c))
             (map (fun x => line_Premise (fst x)) frame)).
  2:{ intros c Hc. apply in_map_iff in Hc. destruct Hc as [x [<- Hx]].
      apply hash_text_of_str. apply (H (fst x)). now apply in_map. }
  rewrite !map_map, combine_maps, map_map. reflexivity.
Qed.

Lemma add_id_columns_raises (frame : list (Line * str)) (e : Py.exn) :
  add_id_columns frame = inl e -> e = Py.AttributeError.
Proof.
  unfold add_id_columns.
  destruct (series_map hash_text_of
              (map (fun x => line_Conclusion (fst x)) frame)) as [e1 | cs] eqn:E1.
  - intros H. inversion H; subst.
    destruct (series_map_raises _ _ _ E1) as [c [_ Hc]].
    exact (hash_text_of_raises c e Hc).
  - destruct (series_map hash_text_of
                (map (fun x => line_Premise (fst x)) frame)) as [e2 | ps] eqn:E2;
      [| discriminate].
    intros H. inversion H; subst.
    destruct (series_map_raises _ _ _ E2) as [c [_ Hc]].
    exact (hash_text_of_raises c e Hc).
Qed.

Lemma add_id_columns_returns (frame : list (Line * str))
  (rows : list FrameRow) :
  add_id_columns frame = inr rows ->
  texts_are_str (map fst frame) /\ rows = frame_rows frame.
Proof.
  intros H.
  assert (T : texts_are_str (map fst frame)).
  { unfold add_id_columns in H.
    destruct (series_map hash_text_of
                (map (fun x => line_Conclusion (fst x)) frame))
      as [e1 | cs] eqn:E1; [discriminate |].
    destruct (series_map hash_text_of
                (map (fun x => line_Premise (fst x)) frame))
      as [e2 | ps] eqn:E2; [discriminate |].
    apply Forall_forall. intros l Hl. apply in_map_iff in Hl.
    destruct Hl as [x [<- Hx]]. split.
    - destruct (series_map_returns _ _ _ E1 (line_Conclusion (fst x)))
        as [y Hy]; [now apply (in_map (fun x => line_Conclusion (fst x))) |].
      exact (hash_text_of_returns _ _ Hy).
    - destruct (series_map_returns _ _ _ E2 (line_Premise (fst x)))
        as [y Hy]; [now apply (in_map (fun x => line_Premise (fst x))) |].
      exact (hash_text_of_returns _ _ Hy). }
  split; [exact T |]. rewrite (add_id_columns_str _ T) in H. now inversion H.
Qed.

Lemma concat_frames_lines (train dev test : list Line) :
  map fst (concat_frames train dev test) = train ++ test ++ dev.
Proof.
  unfold concat_frames, with_split. rewrite !map_app, !map_map. cbn [fst].
  now rewrite !map_id.
Qed.

Lemma frame_rows_length (frame : list (Line * str)) :
  length (frame_rows frame) = length frame.
Proof. unfold frame_rows. apply length_map. Qed.

Lemma frame_rows_conclusion_ids (frame : list (Line * str)) :
  map f_conclusion_id (frame_rows frame)
  = map (fun l => hash_text (cell_text (line_Conclusion l))) (map fst frame).
Proof.
  unfold frame_rows. rewrite !map_map. apply map_ext. now intros [l name].
Qed.

(** A row of the frame holds the cells of a line. *)
Lemma frame_rows_In (train dev test : list Line) (r : FrameRow) :
  In r (frame_rows (concat_frames train dev test)) ->
  exists l,
    In l (train ++ dev ++ test)
    /\ f_Argument_ID r = line_Argument_ID l
    /\ f_Conclusion r = line_Conclusion l
    /\ f_Premise r = line_Premise l.
Proof.
  unfold frame_rows. intros H. apply in_map_iff in H.
  destruct H as [[l name] [<- Hx]]. exists l. repeat split.
  apply (in_map fst) in Hx. rewrite concat_frames_lines in Hx. cbn in Hx.
  rewrite !in_app_iff in *. tauto.
Qed.

Lemma frame_rows_has (train dev test : list Line) (l : Line) :
  In l (train ++ dev ++ test) ->
  exists r,
    In r (frame_rows (concat_frames train dev test))
    /\ f_Argument_ID r = line_Argument_ID l
    /\ f_Premise r = line_Premise l.
Proof.
  intros Hl.
  assert (H : In l (map fst (concat_frames train dev test))).
  { rewrite concat_frames_lines. rewrite !in_app_iff in *. tauto. }
  apply in_map_iff in H. destruct H as [[l' name] [E Hx]]. cbn in E. subst l'.
  eexists. split; [unfold frame_rows; apply in_map; exact Hx |].
  now split.
Qed.

Lemma premise_node_of_row_run (key : str) (row : FrameRow) (fh : File) :
  premise_node_of_row key row fh = (try_premise_node_of_row key row, fh).
Proof.
  unfold try_premise_node_of_row, premise_node_of_row, bind, lift, ret.
  destruct (display_text_of (f_Premise row)); [reflexivity |].
  destruct (subscript (f_Argument_ID row) 0); [reflexivity |].
  now destruct (f_Argument_ID row).
Qed.

Lemma conclusion_node_of_run (key : str) (df : list FrameRow) (fh : File) :
  conclusion_node_of key df fh = (try_conclusion_node_of key df, fh).
Proof.
  unfold try_conclusion_node_of, conclusion_node_of, bind, lift, ret.
  destruct (iloc_of df 0 f_Conclusion) as [| c]; [reflexivity |].
  destruct (display_text_of c); [reflexivity |].
  destruct (iloc_of df 0 f_Argument_ID) as [| a]; [reflexivity |].
  now destruct (subscript a 0).
Qed.

Lemma try_premise_node_of_row_eq (key : str) (row : FrameRow) :
  try_premise_node_of_row key row
  = match f_Premise row with
    | NaN => inl Py.AttributeError
    | Str premise =>
        match f_Argument_ID row with
        | NaN => inl Py.TypeError
        | Str [] => inl Py.IndexError
        | Str (c :: rest) =>
            inr {| node_dataset := lit "touche-23";
                   node_id := f_premise_id row;
                   node_text := display_text premise;
                   node_metadata :=
                     PremiseMeta (c :: rest) [c] key (f_split row)
                       (f_relation row) |}
        end
    end.
Proof.
  unfold try_premise_node_of_row, premise_node_of_row, bind, lift, ret.
  destruct (f_Premise row) as [p |]; [| reflexivity]. cbn [display_text_of str_method].
  destruct (f_Argument_ID row) as [a |]; [| reflexivity].
  cbn [subscript]. rewrite getitem_first. now destruct a.
Qed.

Lemma try_conclusion_node_of_eq (key : str) (df : list FrameRow) :
  try_conclusion_node_of key df
  = match df with
    | [] => inl Py.IndexError
    | row :: _ =>
        match f_Conclusion row with
        | NaN => inl Py.AttributeError
        | Str conclusion =>
            match f_Argument_ID row with
            | NaN => inl Py.TypeError
            | Str [] => inl Py.IndexError
            | Str (c :: rest) =>
                inr {| node_dataset := lit "touche-23";
                       node_id := key;
                       node_text := display_text conclusion;
                       node_metadata := PositionMeta [c] (lit "Position") |}
            end
        end
    end.
Proof.
  unfold try_conclusion_node_of, conclusion_node_of, bind, lift, ret, iloc_of.
  destruct df as [| row df]; [reflexivity |]. cbn [nth_error].
  destruct (f_Conclusion row) as [t |]; [| reflexivity].
  cbn [display_text_of str_method].
  destruct (f_Argument_ID row) as [a |]; [| reflexivity].
  cbn [subscript]. rewrite getitem_first. now destruct a.
Qed.

(** What a run of the last cell on a frame returns, and the file it
    leaves. *)
Lemma save_frame_run (rows : list FrameRow) (old : File) :
  save_frame rows old
  = (outcome (frame_attempts (groupby_of f_conclusion_id rows)),
     printed (frame_attempts (groupby_of f_conclusion_id rows))).
Proof.
  unfold save_frame, bind at 1, open_wt, frame_attempts.
  rewrite (for_each_print_all _ _
             (fun g => try_conclusion_node_of (fst g) (snd g)
                       :: map (try_premise_node_of_row (fst g)) (snd g)));
    [reflexivity |].
  intros [key group] fh. cbn [fst snd].
  change (?x :: ?l) with ([x] ++ l). rewrite print_all_app.
  unfold bind. rewrite conclusion_node_of_run.
  destruct (try_conclusion_node_of key group) as [e | node].
  - unfold print_all. cbn [outcome printed]. now rewrite app_nil_r.
  - unfold print_all at 1. cbn [outcome printed]. unfold print.
    rewrite <- flat_map_singleton. apply for_each_print_all.
    intros row fh'. apply print_one, premise_node_of_row_run.
Qed.

Lemma frame_attempts_In (groups : list (str * list FrameRow))
  (x : Py.exn + Node) :
  In x (frame_attempts groups) ->
  exists key group,
    In (key, group) groups
    /\ (x = try_conclusion_node_of key group
        \/ exists r, In r group /\ x = try_premise_node_of_row key r).
Proof.
  unfold frame_attempts. intros H. apply in_flat_map in H.
  destruct H as [[key group] [Hg Hx]]. exists key, group.
  split; [exact Hg |]. cbn [fst snd] in Hx. destruct Hx as [<- | Hx].
  - now left.
  - right. apply in_map_iff in Hx. destruct Hx as [r [<- Hr]]. now exists r.
Qed.

Lemma frame_attempts_length (groups : list (str * list FrameRow)) :
  length (frame_attempts groups)
  = (length groups + length (flat_map snd groups))%nat.
Proof.
  induction groups as [| [key group] groups IH]; [reflexivity |].
  unfold frame_attempts in *. cbn [flat_map fst snd].
  rewrite !length_app, IH. cbn [length]. rewrite length_map. lia.
Qed.

(** What the last cell attempts for a frame whose texts are [str]: a
    node with the first character of an [Argument ID] that is a [str],
    [TypeError] for a missing [Argument ID], [IndexError] for an empty
    one. *)
Lemma frame_attempt_cases (rows : list FrameRow) (x : Py.exn + Node) :
  Forall (fun r => (exists s, f_Conclusion r = Str s)
                   /\ exists s, f_Premise r = Str s) rows ->
  In x (frame_attempts (groupby_of f_conclusion_id rows)) ->
  exists r,
    In r rows
    /\ ((x = inl Py.TypeError /\ f_Argument_ID r = NaN)
        \/ (x = inl Py.IndexError /\ f_Argument_ID r = Str [])
        \/ exists n c rest,
             x = inr n /\ f_Argument_ID r = Str (c :: rest)
             /\ node_subdataset n = [c]).
Proof.
  intros T Hx. rewrite Forall_forall in T.
  destruct (frame_attempts_In _ _ Hx) as [key [group [Hg Hc]]].
  apply groupby_of_In in Hg. destruct Hg as [Hk Eg].
  assert (Hrow : forall r, In r group -> In r rows).
  { intros r Hr. rewrite Eg in Hr. apply filter_In in Hr. tauto. }
  assert (Hne : group <> []).
  { apply in_map_iff in Hk. destruct Hk as [r [E Hr]]. intros N.
    assert (Hin : In r group).
    { rewrite Eg. apply filter_In. split; [exact Hr | now apply str_eqb_eq]. }
    rewrite N in Hin. destruct Hin. }
  destruct Hc as [-> | [r [Hr ->]]].
  - destruct group as [| r rest]; [congruence |].
    exists r. split; [apply Hrow; now left |].
    rewrite try_conclusion_node_of_eq.
    destruct (T r (Hrow r (or_introl eq_refl))) as [[t ->] _].
    destruct (f_Argument_ID r) as [[| c a] |]; [tauto | | tauto].
    right. right. now eexists _, c, a.
  - exists r. split; [now apply Hrow |].
    rewrite try_premise_node_of_row_eq.
    destruct (T r (Hrow r Hr)) as [_ [p ->]].
    destruct (f_Argument_ID r) as [[| c a] |]; [tauto | | tauto].
    right. right. now eexists _, c, a.
Qed.

Lemma premise_attempted_of (rows : list FrameRow) (r : FrameRow) :
  In r rows ->
  In (try_premise_node_of_row (f_conclusion_id r) r)
     (frame_attempts (groupby_of f_conclusion_id rows)).
Proof.
  intros Hr. unfold frame_attempts. apply in_flat_map.
  exists (f_conclusion_id r,
          filter (fun r' => str_eqb (f_conclusion_id r') (f_conclusion_id r))
            rows).
  split.
  - apply groupby_of_In. split; [now apply in_map | reflexivity].
  - cbn [fst snd]. right. apply in_map.
    apply filter_In. split; [trivial | apply str_eqb_refl].
Qed.

Lemma frame_rows_texts (train dev test : list Line) :
  texts_are_str (train ++ dev ++ test) ->
  Forall (fun r => (exists s, f_Conclusion r = Str s)
                   /\ exists s, f_Premise r = Str s)
    (frame_rows (concat_frames train dev test)).
Proof.
  intros T. unfold texts_are_str in T. rewrite Forall_forall in *.
  intros r Hr. destruct (frame_rows_In _ _ _ r Hr) as [l [Hl [_ [-> ->]]]].
  exact (T l Hl).
Qed.

(** The run on a frame whose texts are [str]. *)
Lemma run_notebook_texts (train dev test : list Line) (old : File) :
  texts_are_str (train ++ dev ++ test) ->
  run_notebook train dev test old
  = save_frame (frame_rows (concat_frames train dev test)) old.
Proof.
  intros T. unfold run_notebook. rewrite add_id_columns_str; [reflexivity |].
  rewrite concat_frames_lines. now apply forall_lines_order.
Qed.

(** The run on a frame that has a text missing. *)
Lemma run_notebook_missing_text (train dev test : list Line) (old : File) :
  ~ texts_are_str (train ++ dev ++ test) ->
  run_notebook train dev test old = (inl Py.AttributeError, old).
Proof.
  intros T. unfold run_notebook.
  destruct (add_id_columns (concat_frames train dev test)) as [e | rows] eqn:E.
  - now rewrite (add_id_columns_raises _ _ E).
  - exfalso. apply T. apply add_id_columns_returns in E.
    destruct E as [E _]. rewrite concat_frames_lines in E.
    now apply forall_lines_order.
Qed.

End FrameFacts.

Lemma filter_map_comm {A B} (f : A -> B) (p : B -> bool) (l : list A) :
  filter p (map f l) = map f (filter (fun x => p (f x)) l).
Proof.
  induction l as [| a l IH]; cbn; [reflexivity |].
  destruct (p (f a)); cbn; now rewrite IH.
Qed.

Section RunOnFrames.
Context {U : UnicodeData}.





(** A missing [Argument ID] in a frame read from files whose texts are
    [str]: the run raises [TypeError]. *)
Lemma run_type_error (train dev test : list Line) :
  texts_are_str (train ++ dev ++ test) ->
  read_from_files (train ++ dev ++ test) ->
  Exists (fun l => line_Argument_ID l = NaN) (train ++ dev ++ test) ->
  outcome (frame_attempts
             (groupby_of f_conclusion_id
                (frame_rows (concat_frames train dev test))))
  = inl Py.TypeError.
Proof.
  intros T R H. apply Exists_exists in H. destruct H as [l [Hl Hid]].
  destruct (frame_rows_has _ _ _ l Hl) as [r [Hr [Ea Ep]]].
  pose proof (premise_attempted_of _ _ Hr) as Hin.
  rewrite try_premise_node_of_row_eq, Ea, Hid, Ep in Hin.
  pose proof T as T'. unfold texts_are_str in T'. rewrite Forall_forall in T'.
  destruct (T' l Hl) as [_ [p Hp]]. rewrite Hp in Hin.
  set (a := frame_attempts _) in *.
  destruct (outcome a) as [e | []] eqn:O.
  - apply outcome_raises_In in O as Hin'.
    destruct (frame_attempt_cases _ _ (frame_rows_texts _ _ _ T) Hin')
      as [r' [Hr' [[E _] | [[_ E] | [n [c [rest [E _]]]]]]]];
      [now inversion E | | discriminate E].
    destruct (frame_rows_In _ _ _ r' Hr') as [l' [Hl' [Ea' _]]].
    unfold read_from_files in R. rewrite Forall_forall in R.
    exfalso. apply (R l' Hl'). congruence.
  - exfalso. exact (outcome_returns a O _ Hin).
Qed.


Lemma frame_rows_of_dataset (train dev test : list Argument) :
  frame_rows (concat_frames (map line_of train) (map line_of dev)
                (map line_of test))
  = map frame_row_of (dataset train dev test).
Proof.
  unfold frame_rows, concat_frames, with_split, dataset.
  rewrite !map_app, !map_map. reflexivity.
Qed.

Lemma try_premise_node_of_row_str (key : str) (r : Row) :
  try_premise_node_of_row key (frame_row_of r) = try_premise_node key r.
Proof.
  rewrite try_premise_node_of_row_eq, try_premise_node_eq.
  unfold premise_node_of. cbn. now destruct (Argument_ID r).
Qed.

Lemma try_conclusion_node_of_str (key : str) (df : DataFrame) :
  try_conclusion_node_of key (map frame_row_of df)
  = try_conclusion_node key df.
Proof.
  rewrite try_conclusion_node_of_eq, try_conclusion_node_eq.
  destruct df as [| r df]; [reflexivity |].
  unfold position_node. cbn. now destruct (Argument_ID r).
Qed.

Lemma frame_attempts_of_dataset (df : DataFrame) :
  frame_attempts (groupby_of f_conclusion_id (map frame_row_of df))
  = attempts (groupby conclusion_id df).
Proof.
  unfold groupby_of, groupby, frame_attempts, attempts.
  rewrite map_map. cbn [f_conclusion_id frame_row_of].
  rewrite !flat_map_concat_map, !map_map. f_equal. apply map_ext.
  intros k. unfold group_attempts. cbn [fst snd].
  rewrite filter_map_comm. cbn [f_conclusion_id frame_row_of].
  rewrite try_conclusion_node_of_str, map_map.
  f_equal; apply map_ext; intros r; apply try_premise_node_of_row_str.
Qed.

(** On tables of [str] the run on the frames is [notebook]. *)
Lemma run_notebook_str (train dev test : list Argument) (old : File) :
  run_notebook (map line_of train) (map line_of dev) (map line_of test) old
  = notebook train dev test old.
Proof.
  rewrite run_notebook_texts.
  - rewrite save_frame_run, frame_rows_of_dataset, frame_attempts_of_dataset.
    unfold notebook. now rewrite save_dataset_run.
  - unfold texts_are_str. rewrite <- !map_app. apply Forall_forall.
    intros l Hl. apply in_map_iff in Hl. destruct Hl as [a [<- _]].
    split; eexists; reflexivity.
Qed.

End RunOnFrames.

(** ** Results *)

(** C1. In the file the notebook leaves, the [related_to] of every
    premise node is the id of a position node that occurs exactly once
    among the position nodes of the file, and the id of every position
    node occurs exactly once among them, whatever the rows (in
    particular when several rows have the same conclusion) and whether
    the run returns or raises. *)
Theorem related_to_one_position {U : UnicodeData}
  (train dev test : list Argument) (old : File) (n : Node) :
  In n (snd (notebook train dev test old)) ->
  (forall a s k sp t,
     node_metadata n = PremiseMeta a s k sp t ->
     count_occ str_dec
       (position_ids (snd (notebook train dev test old))) k = 1%nat)
  /\ (is_position n = true ->
      count_occ str_dec
        (position_ids (snd (notebook train dev test old))) (node_id n)
      = 1%nat).
Proof.
  unfold notebook. rewrite save_dataset_run. cbn [snd].
  set (groups := groupby conclusion_id (dataset train dev test)).
  intros Hin.
  destruct (position_ids_printed groups) as [ND _].
  { unfold groups. rewrite groupby_keys. apply sorted_keys_NoDup. }
  split.
  - intros a s k sp t Hn. apply NoDup_count_occ'; [exact ND |].
    exact (related_to_printed groups n a s k sp t Hin Hn).
  - intros Hp. apply NoDup_count_occ'; [exact ND |].
    unfold position_ids. apply in_map, filter_In. now split.
Qed.

Lemma related_to_one_position_witness :
  let fh := snd (notebook (U := basic_data) plastic_rows [] [] []) in
  let n := premise_node_of (U := basic_data) (lit "850ab7ed14d57432")
             (add_columns (lit "train")
                (argument "E03" " we should  ban PLASTIC" "against"
                   "cats are cute.")) in
  In n fh
  /\ count_occ str_dec (position_ids fh) (lit "850ab7ed14d57432") = 1%nat.
Proof.
  intros fh n.
  assert (Hin : In n fh) by (vm_compute; tauto).
  split; [exact Hin |].
  exact (proj1 (related_to_one_position (U := basic_data)
                  plastic_rows [] [] [] n Hin) _ _ _ _ _ eq_refl).
Defined.




(** C3, as stated, fails: two rows whose conclusions are different
    normalized texts with the same digest give one position line, not
    two. *)
Lemma position_count_collision :
  has_argument_ids (colliding_rows ++ [] ++ [])
  /\ fst (notebook (U := basic_data) colliding_rows [] [] []) = inr tt
  /\ length (filter is_position
               (snd (notebook (U := basic_data) colliding_rows [] [] [])))
     = 1%nat
  /\ distinct (map (spec_normalize (U := basic_data))
                 (map raw_Conclusion colliding_rows))
     = 2%nat
  /\ length (filter is_position
               (snd (notebook (U := basic_data) colliding_rows [] [] [])))
     <> distinct (map (spec_normalize (U := basic_data))
                    (map raw_Conclusion colliding_rows)).
Proof.
  split; [sample_ids |].
  repeat split; vm_compute; (reflexivity || discriminate).
Qed.

(** C3, as the code has it. When every row has an [Argument ID], the
    file holds one premise line per row of the three tables and one
    position line per distinct conclusion id; that is at most the
    number of distinct normalized conclusion texts, and exactly that
    number when no two distinct normalized conclusions of the tables
    have the same id. *)
Theorem node_counts {U : UnicodeData} (train dev test : list Argument)
  (old : File) :
  has_argument_ids (train ++ dev ++ test) ->
  let fh := snd (notebook train dev test old) in
  let conclusions := map raw_Conclusion (train ++ test ++ dev) in
  length (filter is_premise fh)
  = (length train + length dev + length test)%nat
  /\ length (filter is_position fh) = distinct (map hash_text conclusions)
  /\ (length (filter is_position fh)
      <= distinct (map spec_normalize conclusions))%nat
  /\ ((forall a b, In a conclusions -> In b conclusions ->
         hash_text a = hash_text b -> spec_normalize a = spec_normalize b) ->
      length (filter is_position fh)
      = distinct (map spec_normalize conclusions)).
Proof.
  intros H fh conclusions. unfold fh. rewrite (notebook_ok _ _ _ _ H).
  cbn [snd].
  destruct (group_nodes_count
              (groupby conclusion_id (dataset train dev test))) as [E1 E2].
  { intros key group Hin. now apply groupby_nonempty in Hin. }
  rewrite E1, E2, groupby_rows, dataset_length.
  rewrite <- (length_map fst), groupby_keys, sorted_keys_length.
  rewrite dataset_conclusions. fold conclusions.
  assert (Eh : map hash_text conclusions
               = map (fun x => XXH64.xxh64_hexdigest x 42)
                   (map spec_normalize conclusions)).
  { rewrite map_map. apply map_ext. intros x. apply hash_text_spec. }
  repeat split.
  - rewrite Eh. apply distinct_map_le.
  - intros Hinj. rewrite Eh. apply distinct_map_inj.
    intros x y Hx Hy E. apply in_map_iff in Hx, Hy.
    destruct Hx as [a [<- Ha]], Hy as [b [<- Hb]].
    apply Hinj; trivial. now rewrite !hash_text_spec.
Qed.

Lemma node_counts_witness :
  has_argument_ids (plastic_rows ++ [] ++ [])
  /\ length (filter is_premise
               (snd (notebook (U := basic_data) plastic_rows [] [] [])))
     = 3%nat
  /\ length (filter is_position
               (snd (notebook (U := basic_data) plastic_rows [] [] [])))
     = 2%nat.
Proof.
  assert (H : has_argument_ids (plastic_rows ++ [] ++ []))
    by sample_ids.
  split; [exact H |].
  pose proof (node_counts (U := basic_data) plastic_rows [] [] [] H) as T.
  cbv zeta in T. destruct T as [T1 [T2 _]].
  split; [exact T1 | exact T2].
Defined.

(** C4. When every row has an [Argument ID], the lines of the file are
    those of the groups, the groups being taken by ascending conclusion
    id; a group holds the rows of the frame under its key, in the order
    of the frame, and gives the position node of its first row (its
    conclusion text, the first character of its [Argument ID]) followed
    by the premise nodes of its rows, in that order. *)
Theorem output_order {U : UnicodeData} (train dev test : list Argument)
  (old : File) :
  has_argument_ids (train ++ dev ++ test) ->
  let df := dataset train dev test in
  let groups := groupby conclusion_id df in
  snd (notebook train dev test old) = flat_map group_nodes groups
  /\ StronglySorted str_lt (map fst groups)
  /\ (forall key, In key (map fst groups) <-> In key (map conclusion_id df))
  /\ (forall key group, In (key, group) groups ->
        group = filter (fun r => str_eqb (conclusion_id r) key) df
        /\ exists first_row rest,
             group = first_row :: rest
             /\ group_nodes (key, group)
                = position_node key first_row
                  :: map (premise_node_of key) group).
Proof.
  intros H df groups. rewrite (notebook_ok _ _ _ _ H). cbn [snd].
  split; [reflexivity |]. unfold groups. rewrite groupby_keys.
  split; [apply sorted_keys_sorted |].
  split; [intros key; apply sorted_keys_In |].
  intros key group Hin. pose proof (groupby_nonempty _ _ _ _ Hin) as Hne.
  apply groupby_In in Hin. destruct Hin as [_ E]. split; [exact E |].
  destruct group as [| r rest]; [congruence |]. now exists r, rest.
Qed.

Lemma output_order_witness :
  has_argument_ids (plastic_rows ++ [] ++ [])
  /\ map node_metadata (snd (notebook (U := basic_data) plastic_rows [] [] []))
     = [PositionMeta (lit "A") (lit "Position");
        PremiseMeta (lit "A01") (lit "A") (lit "850ab7ed14d57432")
          (lit "train") (Some (lit "Support"));
        PremiseMeta (lit "E03") (lit "E") (lit "850ab7ed14d57432")
          (lit "train") (Some (lit "Attack"));
        PositionMeta (lit "D") (lit "Position");
        PremiseMeta (lit "D02") (lit "D") (lit "b12e6f221578ba1f")
          (lit "train") None].
Proof.
  assert (H : has_argument_ids (plastic_rows ++ [] ++ []))
    by sample_ids.
  split; [exact H |].
  pose proof (output_order (U := basic_data) plastic_rows [] [] [] H) as T.
  cbv zeta in T. destruct T as [T _]. rewrite T. vm_compute. reflexivity.
Defined.

(** C5. The relation of a row is the entry of its stance in the
    two-entry mapping: [Attack] for "against", [Support] for "in favor
    of", nothing for any other stance. Such a row raises nothing: when
    every row has an [Argument ID] the notebook returns, and the row
    has its premise line, whose type is the relation of the row, absent
    for an unmapped stance; every premise line of the file carries the
    relation of a row with its [Argument ID]. *)
Theorem stance_relation {U : UnicodeData} (train dev test : list Argument)
  (old : File) (a : Argument) :
  has_argument_ids (train ++ dev ++ test) ->
  In a (train ++ dev ++ test) ->
  dict_get stance_map (lit "against") = Some (lit "Attack")
  /\ dict_get stance_map (lit "in favor of") = Some (lit "Support")
  /\ (raw_Stance a <> lit "against" -> raw_Stance a <> lit "in favor of" ->
      dict_get stance_map (raw_Stance a) = None)
  /\ fst (notebook train dev test old) = inr tt
  /\ (exists n subdataset key name,
        In n (snd (notebook train dev test old))
        /\ node_id n = hash_text (raw_Premise a)
        /\ node_metadata n
           = PremiseMeta (raw_Argument_ID a) subdataset key name
               (dict_get stance_map (raw_Stance a)))
  /\ (forall n argument_id subdataset key name type,
        In n (snd (notebook train dev test old)) ->
        node_metadata n = PremiseMeta argument_id subdataset key name type ->
        exists b, In b (train ++ dev ++ test)
                  /\ raw_Argument_ID b = argument_id
                  /\ type = dict_get stance_map (raw_Stance b)).
Proof.
  intros H Ha. split; [reflexivity |]. split; [reflexivity |].
  split.
  { intros N1 N2. unfold stance_map. cbn [dict_get].
    apply str_eqb_neq in N1, N2. now rewrite N1, N2. }
  rewrite (notebook_ok _ _ _ _ H). cbn [fst snd]. split; [reflexivity |].
  split.
  - destruct (dataset_has _ _ _ a Ha) as [name Hr].
    eexists _, _, _, _. split; [exact (premise_line _ _ Hr) |].
    split; reflexivity.
  - intros n aid sub key name type Hin Hn.
    pose proof (notebook_ok _ _ _ old H) as E. unfold notebook in E.
    rewrite save_dataset_run in E. inversion E as [[E1 E2]].
    rewrite <- E2 in Hin. apply line_origin in Hin.
    destruct Hin as [r [Hr [_ [-> | ->]]]]; [discriminate Hn |].
    destruct (dataset_In _ _ _ r Hr) as [b [nm [Hb ->]]].
    cbn in Hn. inversion Hn; subst. now exists b.
Qed.

Lemma stance_relation_witness :
  has_argument_ids (plastic_rows ++ [] ++ [])
  /\ In (argument "D02" "Zoos are fine" "maybe" "Cats are cute. ")
       (plastic_rows ++ [] ++ [])
  /\ fst (notebook (U := basic_data) plastic_rows [] [] []) = inr tt
  /\ dict_get stance_map (lit "maybe") = None.
Proof.
  assert (H : has_argument_ids (plastic_rows ++ [] ++ []))
    by sample_ids.
  assert (Ha : In (argument "D02" "Zoos are fine" "maybe" "Cats are cute. ")
                 (plastic_rows ++ [] ++ []))
    by (right; left; reflexivity).
  split; [exact H |]. split; [exact Ha |].
  pose proof (stance_relation (U := basic_data) plastic_rows [] [] [] _ H Ha)
    as [_ [_ [T [R _]]]].
  split; [exact R |].
  apply T; discriminate.
Defined.

(** C6, as stated, fails: these two texts are normalized and differ in
    every letter, and have the same content id, [0f684bd8648a9e35]. *)
Lemma hash_text_collision :
  spec_normalize (U := basic_data) (lit "positiveaalxhukn")
  <> spec_normalize (U := basic_data) (lit "negativexbizdbdw")
  /\ hash_text (U := basic_data) (lit "positiveaalxhukn")
     = hash_text (U := basic_data) (lit "negativexbizdbdw").
Proof. split; [vm_compute; discriminate | vm_compute; reflexivity]. Qed.

(** C6, as the code has it. Two texts have the same content id exactly
    when the UTF-8 encodings of their normalized forms have the same
    64-bit XXH64 value under seed 42; so texts with different ids
    differ in actual letters, but texts that differ in actual letters
    get different ids only where XXH64 tells them apart. *)
Theorem hash_text_distinct {U : UnicodeData} (a b : str) :
  (hash_text a = hash_text b <->
   XXH64.xxh64 (XXH64.utf8_encode (spec_normalize a)) 42
   = XXH64.xxh64 (XXH64.utf8_encode (spec_normalize b)) 42)
  /\ (hash_text a <> hash_text b -> spec_normalize a <> spec_normalize b).
Proof.
  rewrite !hash_text_spec. split; [apply hexdigest_eq_iff |].
  intros N E. apply N. now rewrite E.
Qed.

Lemma hash_text_distinct_witness :
  hash_text (U := basic_data) (lit "Zoos are fine")
  <> hash_text (U := basic_data) (lit "We should ban plastic")
  /\ spec_normalize (U := basic_data) (lit "Zoos are fine")
     <> spec_normalize (U := basic_data) (lit "We should ban plastic").
Proof.
  assert (N : hash_text (U := basic_data) (lit "Zoos are fine")
              <> hash_text (U := basic_data) (lit "We should ban plastic"))
    by (vm_compute; discriminate).
  split; [exact N |].
  exact (proj2 (hash_text_distinct (U := basic_data) _ _) N).
Defined.

(** C7. The text of every line of the file is the NFKD form of a text
    of the frame with its whitespace collapsed: trimmed, split on
    whitespace and joined again with single spaces, which leaves every
    other character (and so the case of the letters) as it is. For a
    position line it is the conclusion of a row, for a premise line its
    premise; the id of the line is the content id of that original
    text, not of the text displayed. *)
Theorem node_text_display {U : UnicodeData} (train dev test : list Argument)
  (old : File) (n : Node) :
  In n (snd (notebook train dev test old)) ->
  (exists r, In r (dataset train dev test)
     /\ ((is_position n = true
          /\ node_id n = hash_text (Conclusion r)
          /\ node_text n
             = nfkd (Py.join (lit " ") (Py.split (Py.strip (Conclusion r)))))
         \/ (is_premise n = true
             /\ node_id n = hash_text (Premise r)
             /\ node_text n
                = nfkd (Py.join (lit " ") (Py.split (Py.strip (Premise r)))))))
  /\ (forall text,
        remove_whitespace (Py.join (lit " ") (Py.split (Py.strip text)))
        = remove_whitespace text).
Proof.
  unfold notebook. rewrite save_dataset_run. cbn [snd]. intros Hin.
  split; [| apply collapse_keeps_letters].
  apply line_origin in Hin. destruct Hin as [r [Hr [_ Hn]]].
  destruct (dataset_ids_of _ _ _ r Hr) as [Ec [Ep _]].
  exists r. split; [exact Hr |].
  destruct Hn as [-> | ->]; [left | right]; cbn; auto.
Qed.

Lemma node_text_display_witness :
  let n := position_node (U := basic_data) (lit "850ab7ed14d57432")
             (add_columns (lit "train")
                (argument "A01" "We should ban plastic" "in favor of"
                   "Plastic harms oceans")) in
  In n (snd (notebook (U := basic_data) plastic_rows [] [] []))
  /\ node_text n = lit "We should ban plastic"
  /\ remove_whitespace (Py.join (lit " ")
                          (Py.split (Py.strip (lit " we should  ban PLASTIC"))))
     = lit "weshouldbanPLASTIC".
Proof.
  intros n.
  assert (Hin : In n (snd (notebook (U := basic_data) plastic_rows [] [] [])))
    by (vm_compute; tauto).
  split; [exact Hin |]. split; [reflexivity |].
  rewrite (proj2 (node_text_display (U := basic_data)
                    plastic_rows [] [] [] n Hin)).
  reflexivity.
Defined.




(** C10. The content id of a text is the content id of its normalized
    form (trimmed, lowercased, all whitespace removed); a text made of
    whitespace only has the content id of the empty text. *)
Theorem hash_text_normalized {U : UnicodeData} {L : UnicodeLaws U}
  (t : str) :
  hash_text t = hash_text (remove_whitespace (lower (Py.strip t)))
  /\ (whitespace t -> hash_text t = hash_text []).
Proof.
  split.
  - rewrite !hash_text_spec. fold (spec_normalize t).
    now rewrite spec_normalize_idempotent.
  - intros W. rewrite !hash_text_spec. unfold spec_normalize.
    now rewrite (strip_spaces t W).
Qed.

Lemma hash_text_normalized_witness :
  hash_text (U := basic_data) (lit " We  Should ban PLASTIC ")
  = hash_text (U := basic_data) (lit "weshouldbanplastic")
  /\ whitespace [32; 9; 10; 0xA0; 0x2003]
  /\ hash_text (U := basic_data) [32; 9; 10; 0xA0; 0x2003]
     = hash_text (U := basic_data) [].
Proof.
  assert (W : whitespace [32; 9; 10; 0xA0; 0x2003]) by (repeat constructor).
  split; [| split; [exact W |]].
  - exact (proj1 (hash_text_normalized (U := basic_data) (L := basic_laws)
                    (lit " We  Should ban PLASTIC "))).
  - exact (proj2 (hash_text_normalized (U := basic_data) (L := basic_laws)
                    [32; 9; 10; 0xA0; 0x2003]) W).
Defined.

(** ** Further results: splitting and joining *)

Lemma split_from_spaces (word r : str) :
  whitespace r -> Py.split_from word r = Py.emit word [].
Proof.
  intros H. revert word.
  induction H as [| w r Hw _ IH]; intros word; [reflexivity |].
  cbn. rewrite Hw, IH. reflexivity.
Qed.

Lemma split_from_leading (l s : str) :
  whitespace l -> Py.split_from [] (l ++ s) = Py.split_from [] s.
Proof.
  induction 1 as [| w l Hw _ IH]; [reflexivity |].
  cbn. now rewrite Hw.
Qed.

Lemma split_from_trailing (word s r : str) :
  whitespace r -> Py.split_from word (s ++ r) = Py.split_from word s.
Proof.
  intros H. revert word. induction s as [| c s IH]; intros word.
  - cbn [app]. now rewrite split_from_spaces.
  - cbn. destruct (Py.isspace c); now rewrite IH.
Qed.

Lemma split_strip (s : str) : Py.split (Py.strip s) = Py.split s.
Proof.
  destruct (strip_split s) as [l [r [Hl [Hr E]]]]. unfold Py.split.
  rewrite E at 2.
  now rewrite (split_from_leading _ _ Hl), (split_from_trailing _ _ _ Hr).
Qed.

Lemma split_from_clean (word s : str) :
  Forall (fun c => Py.isspace c = false) word ->
  Forall clean_word (Py.split_from word s).
Proof.
  revert word. induction s as [| c s IH]; intros word Hw.
  - cbn. destruct word as [| x word]; cbn; [constructor |].
    constructor; [| constructor]. split; [discriminate | trivial].
  - cbn. destruct (Py.isspace c) eqn:Hc.
    + destruct word as [| x word]; cbn; [now apply IH |].
      constructor; [split; [discriminate | trivial] | now apply IH].
    + apply IH. apply Forall_app. split; [trivial | now repeat constructor].
Qed.

Lemma split_from_word (word w rest : str) :
  Forall (fun c => Py.isspace c = false) w ->
  Py.split_from word (w ++ rest) = Py.split_from (word ++ w) rest.
Proof.
  intros H. revert word.
  induction H as [| c w Hc _ IH]; intros word; [now rewrite app_nil_r |].
  cbn. rewrite Hc, IH, <- app_assoc. reflexivity.
Qed.

(** Joining words on a space and splitting again gives the words
    back. *)
Lemma split_join (words : list str) :
  Forall clean_word words -> Py.split (Py.join [32] words) = words.
Proof.
  unfold Py.split.
  induction 1 as [| w ws [Hne Hw] Hws IH]; [reflexivity |].
  destruct ws as [| w' ws].
  - cbn [Py.join]. rewrite <- (app_nil_r w) at 1.
    rewrite (split_from_word _ _ _ Hw). cbn. now destruct w.
  - change (Py.join [32] (w :: w' :: ws))
      with (w ++ 32 :: Py.join [32] (w' :: ws)).
    rewrite (split_from_word _ _ _ Hw). cbn [app Py.split_from].
    change (Py.isspace 32) with true. cbv iota. rewrite IH.
    now destruct w.
Qed.

Lemma join_only_spaces (words : list str) :
  Forall clean_word words ->
  Forall (fun c => Py.isspace c = true -> c = 32) (Py.join [32] words).
Proof.
  assert (Hword : forall w, Forall (fun c => Py.isspace c = false) w ->
            Forall (fun c => Py.isspace c = true -> c = 32) w).
  { intros w H. apply Forall_forall. intros c Hc E.
    rewrite Forall_forall in H. rewrite (H c Hc) in E. discriminate. }
  induction 1 as [| w ws [_ Hw] _ IH]; [constructor |].
  destruct ws as [| w' ws]; [now apply Hword |].
  change (Py.join [32] (w :: w' :: ws))
    with (w ++ [32] ++ Py.join [32] (w' :: ws)).
  apply Forall_app. split; [now apply Hword |].
  apply Forall_app. split; [| exact IH]. now repeat constructor.
Qed.

Lemma join_first (words : list str) :
  Forall clean_word words ->
  Py.lstrip (Py.join [32] words) = Py.join [32] words.
Proof.
  destruct 1 as [| w ws [Hne Hw] _]; [reflexivity |].
  destruct w as [| c w]; [congruence |]. inversion Hw as [| ? ? Hc _]; subst.
  destruct ws; cbn; now rewrite Hc.
Qed.

Lemma join_last (words : list str) :
  Forall clean_word words ->
  Py.lstrip (rev (Py.join [32] words)) = rev (Py.join [32] words).
Proof.
  intros H.
  assert (E : Py.join [32] words = []
              \/ exists rest c, Py.join [32] words = rest ++ [c]
                                /\ Py.isspace c = false).
  { induction H as [| w ws [Hne Hw] Hws IH]; [now left |]. right.
    destruct ws as [| w' ws].
    - destruct (exists_last Hne) as [rest [c E]]. exists rest, c.
      split; [exact E |]. rewrite E in Hw. apply Forall_app in Hw.
      destruct Hw as [_ Hc]. now inversion Hc.
    - destruct IH as [E | [rest [c [E Hc]]]].
      { exfalso. inversion Hws as [| ? ? [Hne' _] _]; subst.
        destruct ws; cbn in E; [congruence |].
        apply app_eq_nil in E. now destruct E. }
      exists (w ++ 32 :: rest), c. split; [| exact Hc].
      change (Py.join [32] (w :: w' :: ws))
        with (w ++ 32 :: Py.join [32] (w' :: ws)).
      rewrite E, <- app_assoc. reflexivity. }
  destruct E as [-> | [rest [c [-> Hc]]]]; [reflexivity |].
  rewrite rev_app_distr. cbn. now rewrite Hc.
Qed.

Lemma split_is_clean (s : str) : Forall clean_word (Py.split s).
Proof. apply split_from_clean. constructor. Qed.

Lemma collapse_split (text : str) :
  collapse text = Py.join [32] (Py.split text).
Proof. unfold collapse. now rewrite lit_space, split_strip. Qed.

(** X1. [strip] before [split] changes nothing: the words of a text
    are those of the text stripped, so the text of a node is the words
    of the original text joined on single spaces. *)
Theorem strip_before_split (text : str) :
  Py.split (Py.strip text) = Py.split text
  /\ Py.join (lit " ") (Py.split (Py.strip text))
     = Py.join (lit " ") (Py.split text).
Proof. rewrite split_strip. now split. Qed.

(** X2. The words [split] gives are not empty and hold no whitespace;
    put end to end they are the text without its whitespace; joined on
    a space and split again they come back unchanged. *)
Theorem split_words (text : str) :
  Forall clean_word (Py.split text)
  /\ concat (Py.split text) = remove_whitespace text
  /\ Py.split (Py.join (lit " ") (Py.split text)) = Py.split text.
Proof.
  split; [apply split_is_clean |]. split.
  - unfold Py.split. now rewrite concat_split_from.
  - rewrite lit_space. apply split_join, split_is_clean.
Qed.

(** X3. Collapsing the whitespace of a text is idempotent, and the
    collapsed text has no whitespace at either end and no whitespace
    character other than the space. *)
Theorem collapse_idempotent (text : str) :
  collapse (collapse text) = collapse text
  /\ Py.strip (collapse text) = collapse text
  /\ Forall (fun c => Py.isspace c = true -> c = 32) (collapse text).
Proof.
  pose proof (split_is_clean text) as C. split; [| split].
  - rewrite (collapse_split (collapse text)), (collapse_split text).
    now rewrite (split_join _ C).
  - rewrite collapse_split. unfold Py.strip, Py.rstrip.
    rewrite (join_first _ C), (join_last _ C). apply rev_involutive.
  - rewrite collapse_split. now apply join_only_spaces.
Qed.

(** ** Further results: the content id *)

Section IdFacts.
Context {U : UnicodeData} {L : UnicodeLaws U}.

Lemma letters_join_split (word s : str) :
  letters (Py.join [32] (Py.split_from word s)) = letters (word ++ s).
Proof.
  revert word. induction s as [| c s IH]; intros word.
  - cbn. rewrite app_nil_r. now destruct word.
  - cbn [Py.split_from]. destruct (Py.isspace c) eqn:Hc.
    + rewrite (letters_app_space word s c Hc).
      specialize (IH []). cbn [app] in IH.
      destruct word as [| x word]; [exact IH |].
      cbn [Py.emit].
      destruct (Py.split_from [] s) as [| w ws] eqn:E.
      * cbn [Py.join] in *. rewrite <- IH. symmetry. apply app_nil_r.
      * change (Py.join [32] ((x :: word) :: w :: ws))
          with ((x :: word) ++ 32 :: Py.join [32] (w :: ws)).
        rewrite (letters_app_space (x :: word) (Py.join [32] (w :: ws)) 32
                   eq_refl).
        now rewrite IH.
    + rewrite IH, <- app_assoc. reflexivity.
Qed.

Lemma letters_collapse (text : str) : letters (collapse text) = letters text.
Proof.
  rewrite collapse_split. unfold Py.split.
  now rewrite letters_join_split.
Qed.

End IdFacts.

(** X4. In [hash_text] the call to [strip] changes nothing: what is
    hashed is the lowercased text without its whitespace, stripped or
    not. *)
Theorem hash_text_without_strip {U : UnicodeData} {L : UnicodeLaws U}
  (text : str) :
  Py.join (lit "") (Py.split (lower (Py.strip text)))
  = Py.join (lit "") (Py.split (lower text))
  /\ hash_text text
     = XXH64.xxh64_hexdigest (Py.join (lit "") (Py.split (lower text))) 42.
Proof.
  assert (E : Py.join (lit "") (Py.split (lower (Py.strip text)))
              = Py.join (lit "") (Py.split (lower text))).
  { rewrite !join_split. apply letters_strip. }
  split; [exact E |]. unfold hash_text. cbv zeta. now rewrite E.
Qed.

Lemma hash_text_without_strip_witness :
  Py.join (lit "") (Py.split (lower (U := basic_data)
                                (Py.strip (lit "  Zoos ARE fine "))))
  = Py.join (lit "") (Py.split (lower (U := basic_data)
                                  (lit "  Zoos ARE fine "))).
Proof.
  exact (proj1 (hash_text_without_strip (U := basic_data) (L := basic_laws)
                  (lit "  Zoos ARE fine "))).
Defined.

(** X5. A text and the text shown in its node before NFKD, that is
    with its whitespace collapsed, have the same content id. *)
Theorem hash_text_collapse {U : UnicodeData} {L : UnicodeLaws U}
  (text : str) :
  hash_text (Py.join (lit " ") (Py.split (Py.strip text))) = hash_text text.
Proof.
  rewrite !hash_text_spec, !spec_normalize_letters.
  now rewrite (letters_collapse text).
Qed.

Lemma hash_text_collapse_witness :
  hash_text (U := basic_data)
    (Py.join (lit " ") (Py.split (Py.strip (lit " we should  ban PLASTIC"))))
  = hash_text (U := basic_data) (lit " we should  ban PLASTIC").
Proof.
  exact (hash_text_collapse (U := basic_data) (L := basic_laws)
           (lit " we should  ban PLASTIC")).
Defined.

(** ** Further results: the digest and the bytes hashed *)

Lemma hex_digit_is_hex (d : Z) :
  0 <= d < 16 -> is_hex_digit (XXH64.hex_digit d) = true.
Proof.
  intros H. unfold XXH64.hex_digit, is_hex_digit.
  destruct (d <? 10) eqn:E; lia.
Qed.

Lemma hex_of_is_hex (n : nat) (x : Z) :
  Forall (fun c => is_hex_digit c = true) (XXH64.hex_of n x).
Proof.
  revert x. induction n as [| n IH]; intros x; cbn; [constructor |].
  apply Forall_app. split; [apply IH |].
  repeat constructor. apply hex_digit_is_hex. apply Z.mod_pos_bound. lia.
Qed.

Lemma hex_digit_lt (p q : Z) :
  0 <= p < 16 -> 0 <= q < 16 ->
  (XXH64.hex_digit p <? XXH64.hex_digit q) = (p <? q).
Proof.
  intros Hp Hq. unfold XXH64.hex_digit.
  destruct (p <? 10) eqn:Ep, (q <? 10) eqn:Eq; lia.
Qed.

Lemma str_eqb_cons (x y : Z) (a b : str) :
  str_eqb (x :: a) (y :: b) = (x =? y) && str_eqb a b.
Proof.
  destruct (Z.eqb_spec x y) as [-> | N], (str_eqb a b) eqn:E; cbn.
  - apply str_eqb_eq in E. subst. apply str_eqb_refl.
  - apply str_eqb_neq. apply str_eqb_neq in E. congruence.
  - apply str_eqb_neq. congruence.
  - apply str_eqb_neq. congruence.
Qed.

(** Comparing two texts of one length that end in one more character
    each. *)
Lemma str_ltb_snoc (a b : str) (c d : Z) :
  length a = length b ->
  str_ltb (a ++ [c]) (b ++ [d])
  = str_ltb a b || (str_eqb a b && (c <? d)).
Proof.
  revert b. induction a as [| x a IH]; intros [| y b] Hlen;
    try discriminate Hlen.
  - cbn. now rewrite andb_false_r, orb_false_r.
  - cbn [app str_ltb]. rewrite IH by (cbn in Hlen; lia).
    rewrite str_eqb_cons.
    destruct (x <? y), (x =? y), (str_ltb a b), (str_eqb a b), (c <? d);
      reflexivity.
Qed.

Lemma hex_of_eqb (n : nat) (x y : Z) :
  0 <= x < 16 ^ Z.of_nat n -> 0 <= y < 16 ^ Z.of_nat n ->
  str_eqb (XXH64.hex_of n x) (XXH64.hex_of n y) = (x =? y).
Proof.
  intros Hx Hy. destruct (Z.eqb_spec x y) as [-> | N].
  - apply str_eqb_refl.
  - apply str_eqb_neq. intros E. apply hex_of_inj in E.
    rewrite !Z.mod_small in E; trivial. contradiction.
Qed.

(** On numbers of [n] hexadecimal digits, the order of the texts is
    the order of the numbers. *)
Lemma hex_of_ltb (n : nat) (x y : Z) :
  0 <= x < 16 ^ Z.of_nat n -> 0 <= y < 16 ^ Z.of_nat n ->
  str_ltb (XXH64.hex_of n x) (XXH64.hex_of n y) = (x <? y).
Proof.
  revert x y. induction n as [| n IH]; intros x y Hx Hy.
  - cbn in *. lia.
  - rewrite Nat2Z.inj_succ, Z.pow_succ_r in Hx, Hy by lia.
    assert (P : 0 < 16 ^ Z.of_nat n) by (apply Z.pow_pos_nonneg; lia).
    assert (Hx' : 0 <= x / 16 < 16 ^ Z.of_nat n).
    { split; [apply Z.div_pos; lia | apply Z.div_lt_upper_bound; lia]. }
    assert (Hy' : 0 <= y / 16 < 16 ^ Z.of_nat n).
    { split; [apply Z.div_pos; lia | apply Z.div_lt_upper_bound; lia]. }
    cbn [XXH64.hex_of].
    rewrite str_ltb_snoc by now rewrite !hex_of_length.
    rewrite (IH _ _ Hx' Hy'), (hex_of_eqb _ _ _ Hx' Hy').
    rewrite hex_digit_lt by (apply Z.mod_pos_bound; lia).
    pose proof (Z.div_mod x 16 ltac:(lia)) as Dx.
    pose proof (Z.div_mod y 16 ltac:(lia)) as Dy.
    pose proof (Z.mod_pos_bound x 16 ltac:(lia)) as Mx.
    pose proof (Z.mod_pos_bound y 16 ltac:(lia)) as My.
    lia.
Qed.

(** X6. A content id is made of 16 lowercase hexadecimal digits. *)
Theorem hash_text_hex_digits {U : UnicodeData} (text : str) :
  length (hash_text text) = 16%nat
  /\ Forall (fun c => is_hex_digit c = true) (hash_text text).
Proof.
  rewrite hash_text_spec. unfold XXH64.xxh64_hexdigest.
  split; [apply hex_of_length | apply hex_of_is_hex].
Qed.

(** X7. Python orders two content ids as it orders the 64-bit hash
    values they print: the groups, taken by ascending id, are taken by
    ascending XXH64 value of the normalized conclusion. *)
Theorem hash_text_order {U : UnicodeData} (a b : str) :
  str_ltb (hash_text a) (hash_text b)
  = (XXH64.xxh64 (XXH64.utf8_encode (spec_normalize a)) 42
     <? XXH64.xxh64 (XXH64.utf8_encode (spec_normalize b)) 42).
Proof.
  rewrite !hash_text_spec. unfold XXH64.xxh64_hexdigest.
  apply hex_of_ltb; change (16 ^ Z.of_nat 16) with (2 ^ 64);
    apply xxh64_range.
Qed.

Lemma cons_inj {A} (x y : A) (l l' : list A) :
  x :: l = y :: l' -> x = y /\ l = l'.
Proof. intros E. now inversion E. Qed.

Ltac split_bytes :=
  repeat match goal with
         | E : _ :: _ = _ :: _ |- _ =>
             apply cons_inj in E; destruct E as [? E]
         end.

Lemma utf8_char_inj (c1 c2 : Z) (r1 r2 : list Z) :
  code_point c1 -> code_point c2 ->
  XXH64.utf8_char c1 ++ r1 = XXH64.utf8_char c2 ++ r2 ->
  c1 = c2 /\ r1 = r2.
Proof.
  unfold code_point, XXH64.utf8_char. intros H1 H2.
  destruct (c1 <? 128) eqn:A1; [| destruct (c1 <? 2048) eqn:B1;
                                   [| destruct (c1 <? 65536) eqn:C1]];
  (destruct (c2 <? 128) eqn:A2; [| destruct (c2 <? 2048) eqn:B2;
                                    [| destruct (c2 <? 65536) eqn:C2]]);
  cbn [app]; intros E; split_bytes;
  (split; [| first [assumption | exfalso]]); Z.div_mod_to_equations; lia.
Qed.

Lemma utf8_char_bytes (c : Z) :
  code_point c ->
  XXH64.utf8_char c <> []
  /\ Forall (fun b => 0 <= b < 256) (XXH64.utf8_char c).
Proof.
  unfold code_point, XXH64.utf8_char. intros H.
  destruct (c <? 128) eqn:A; [| destruct (c <? 2048) eqn:B;
                                 [| destruct (c <? 65536) eqn:C]];
  (split; [discriminate |]); repeat constructor;
  Z.div_mod_to_equations; lia.
Qed.

Lemma utf8_encode_inj (a b : str) :
  Forall code_point a -> Forall code_point b ->
  XXH64.utf8_encode a = XXH64.utf8_encode b -> a = b.
Proof.
  intros Ha. revert b.
  induction Ha as [| c a Hc _ IH]; intros b Hb E; destruct Hb as [| d b Hd Hb].
  - reflexivity.
  - cbn in E. destruct (utf8_char_bytes d Hd) as [N _].
    destruct (XXH64.utf8_char d); [congruence | discriminate E].
  - cbn in E. destruct (utf8_char_bytes c Hc) as [N _].
    destruct (XXH64.utf8_char c); [congruence | discriminate E].
  - cbn [XXH64.utf8_encode flat_map] in E.
    apply utf8_char_inj in E; trivial. destruct E as [-> E].
    f_equal. now apply IH.
Qed.

Lemma code_points_check (s : str) :
  forallb is_code_point s = true -> Forall code_point s.
Proof.
  intros H. apply Forall_forall. intros c Hc.
  rewrite forallb_forall in H. specialize (H c Hc).
  unfold is_code_point in H. unfold code_point. lia.
Qed.

(** X8. The UTF-8 encoding under which a text is hashed tells any two
    texts of Unicode code points apart, and gives bytes. *)
Theorem utf8_encode_faithful (a b : str) :
  Forall code_point a -> Forall code_point b ->
  (XXH64.utf8_encode a = XXH64.utf8_encode b -> a = b)
  /\ Forall (fun x => 0 <= x < 256) (XXH64.utf8_encode a).
Proof.
  intros Ha Hb. split; [now apply utf8_encode_inj |].
  unfold XXH64.utf8_encode. induction Ha as [| c a Hc _ IH]; [constructor |].
  cbn. apply Forall_app. split; [| exact IH].
  now destruct (utf8_char_bytes c Hc).
Qed.

Lemma utf8_encode_faithful_witness :
  Forall code_point [0xE9; 0x20AC; 0x1F600]
  /\ Forall code_point [0xE9; 0x20AC]
  /\ Forall (fun x => 0 <= x < 256)
       (XXH64.utf8_encode [0xE9; 0x20AC; 0x1F600]).
Proof.
  assert (Ha : Forall code_point [0xE9; 0x20AC; 0x1F600])
    by (apply code_points_check; reflexivity).
  assert (Hb : Forall code_point [0xE9; 0x20AC])
    by (apply code_points_check; reflexivity).
  split; [exact Ha |]. split; [exact Hb |].
  exact (proj2 (utf8_encode_faithful _ _ Ha Hb)).
Defined.

(** X9. When two texts whose normalized forms differ have the same
    content id, XXH64 collides on two different byte strings: nothing
    else in [hash_text] merges texts. *)
Theorem same_id_is_collision {U : UnicodeData} (a b : str) :
  Forall code_point (spec_normalize a) ->
  Forall code_point (spec_normalize b) ->
  spec_normalize a <> spec_normalize b ->
  hash_text a = hash_text b ->
  XXH64.utf8_encode (spec_normalize a) <> XXH64.utf8_encode (spec_normalize b)
  /\ XXH64.xxh64 (XXH64.utf8_encode (spec_normalize a)) 42
     = XXH64.xxh64 (XXH64.utf8_encode (spec_normalize b)) 42.
Proof.
  intros Ha Hb N E. split.
  - intros E'. apply N. now apply utf8_encode_inj.
  - rewrite !hash_text_spec in E. now apply hexdigest_eq_iff.
Qed.

Lemma same_id_is_collision_witness :
  XXH64.xxh64 (XXH64.utf8_encode
                 (spec_normalize (U := basic_data) (lit "positiveaalxhukn")))
    42
  = XXH64.xxh64 (XXH64.utf8_encode
                   (spec_normalize (U := basic_data) (lit "negativexbizdbdw")))
      42.
Proof.
  refine (proj2 (same_id_is_collision (U := basic_data)
                   (lit "positiveaalxhukn") (lit "negativexbizdbdw")
                   _ _ _ _)).
  - apply code_points_check. vm_compute. reflexivity.
  - apply code_points_check. vm_compute. reflexivity.
  - assert (N : str_eqb
                  (spec_normalize (U := basic_data) (lit "positiveaalxhukn"))
                  (spec_normalize (U := basic_data) (lit "negativexbizdbdw"))
                = false) by (vm_compute; reflexivity).
    now apply str_eqb_neq.
  - vm_compute. reflexivity.
Defined.

(** ** Further results: the run and its lines *)

Lemma attempts_length {U : UnicodeData} (groups : list (str * DataFrame)) :
  length (attempts groups)
  = (length groups + length (flat_map snd groups))%nat.
Proof.
  induction groups as [| [key group] groups IH]; [reflexivity |].
  unfold attempts in *. cbn [flat_map snd].
  rewrite !length_app, IH. unfold group_attempts. cbn [fst snd length].
  rewrite length_map. lia.
Qed.

Lemma filter_find {A} (f : A -> bool) (l : list A) (x : A) (rest : list A) :
  filter f l = x :: rest -> find f l = Some x.
Proof.
  induction l as [| y l IH]; cbn; [discriminate |].
  destruct (f y); [intros E; now inversion E | exact IH].
Qed.

Lemma relation_values (stance : str) :
  dict_get stance_map stance = None
  \/ dict_get stance_map stance = Some (lit "Attack")
  \/ dict_get stance_map stance = Some (lit "Support").
Proof.
  unfold stance_map. cbn [dict_get].
  destruct (str_eqb stance (lit "against")); [tauto |].
  destruct (str_eqb stance (lit "in favor of")); tauto.
Qed.

(** The groups hold the rows of the frame, each once. *)
Lemma groupby_permutation_keys (column : Row -> str) (df : DataFrame)
  (keys : list str) :
  NoDup keys -> (forall r, In r df -> In (column r) keys) ->
  Permutation
    (flat_map (fun k => filter (fun r => str_eqb (column r) k) df) keys) df.
Proof.
  intros ND. induction df as [| r df IH]; intros Hcov.
  - replace (flat_map _ keys) with (@nil Row); [constructor |].
    clear. induction keys as [| k keys IHk]; cbn; trivial.
  - assert (Hr : In (column r) keys) by (apply Hcov; now left).
    destruct (in_split _ _ Hr) as [ks1 [ks2 E]]. subst keys.
    apply NoDup_remove_2 in ND as Hnot.
    assert (N1 : ~ In (column r) ks1)
      by (intros H; apply Hnot, in_or_app; now left).
    assert (N2 : ~ In (column r) ks2)
      by (intros H; apply Hnot, in_or_app; now right).
    specialize (IH (fun r' H => Hcov r' (or_intror H))).
    rewrite flat_map_app in *. cbn [flat_map] in *.
    rewrite (filter_other_keys column r df ks1 N1),
      (filter_other_keys column r df ks2 N2), filter_head, str_eqb_refl.
    cbn [app].
    apply Permutation_sym, Permutation_cons_app, Permutation_sym. exact IH.
Qed.

Lemma groupby_permutation (column : Row -> str) (df : DataFrame) :
  Permutation (flat_map snd (groupby column df)) df.
Proof.
  unfold groupby. rewrite flat_map_concat_map, map_map. cbn [snd].
  rewrite <- flat_map_concat_map. apply groupby_permutation_keys.
  - apply sorted_keys_NoDup.
  - intros r Hr. apply sorted_keys_In. now apply in_map.
Qed.

Lemma sorted_prefix (a b : list str) :
  StronglySorted str_lt (a ++ b) -> StronglySorted str_lt a.
Proof.
  induction a as [| x a IH]; cbn; intros H; [constructor |].
  inversion H as [| ? ? S F]; subst. constructor; [now apply IH |].
  apply Forall_app in F. now destruct F.
Qed.

Section RunFacts.
Context {U : UnicodeData}.

Lemma dataset_In_split (train dev test : list Argument) (r : Row) :
  In r (dataset train dev test) ->
  exists a,
    (r = add_columns (lit "train") a /\ In a train)
    \/ (r = add_columns (lit "test") a /\ In a test)
    \/ (r = add_columns (lit "validation") a /\ In a dev).
Proof.
  unfold dataset. rewrite !in_app_iff, !in_map_iff.
  intros [[a [<- Ha]] | [[a [<- Ha]] | [a [<- Ha]]]]; exists a; tauto.
Qed.

Lemma premise_attempted (df : DataFrame) (r : Row) :
  In r df ->
  In (try_premise_node (conclusion_id r) r)
     (attempts (groupby conclusion_id df)).
Proof.
  intros Hr. unfold attempts. apply in_flat_map.
  exists (conclusion_id r,
          filter (fun r' => str_eqb (conclusion_id r') (conclusion_id r)) df).
  split.
  - apply groupby_In. split; [now apply in_map | reflexivity].
  - unfold group_attempts. cbn [fst snd]. right. apply in_map.
    apply filter_In. split; [trivial | apply str_eqb_refl].
Qed.

(** The position ids of the file are the first keys of the groups. *)
Lemma position_ids_prefix (groups : list (str * DataFrame)) :
  exists rest,
    map fst groups = position_ids (printed (attempts groups)) ++ rest.
Proof.
  induction groups as [| [key group] groups [rest IH]]; [now exists [] |].
  unfold attempts in *. cbn [flat_map map fst].
  rewrite printed_app, position_ids_app.
  destruct (position_ids_group key group) as [E | E]; rewrite E.
  - destruct (printed_group key group) as [P | [r0 [rs [_ [_ P]]]]].
    + assert (O : exists e, outcome (group_attempts (key, group)) = inl e).
      { unfold group_attempts in *. cbn [fst snd] in *.
        destruct (try_conclusion_node key group); [now eexists |].
        discriminate P. }
      destruct O as [e ->]. now exists (key :: map fst groups).
    + rewrite P in E. unfold position_ids in E. cbn in E. discriminate E.
  - destruct (outcome (group_attempts (key, group))).
    + now exists (map fst groups).
    + exists rest. cbn [app]. now rewrite IH.
Qed.

Lemma premise_nodes_of_groups (groups : list (str * DataFrame)) :
  (forall key group r, In (key, group) groups -> In r group ->
     conclusion_id r = key) ->
  filter is_premise (flat_map group_nodes groups)
  = map (fun r => premise_node_of (conclusion_id r) r) (flat_map snd groups).
Proof.
  induction groups as [| [key group] groups IH]; intros H; [reflexivity |].
  cbn [flat_map snd]. rewrite filter_app, map_app.
  rewrite IH by (intros k g r Hg; apply H; now right). f_equal.
  assert (E : forall rows,
            (forall r, In r rows -> conclusion_id r = key) ->
            filter is_premise (map (premise_node_of key) rows)
            = map (fun r => premise_node_of (conclusion_id r) r) rows).
  { induction rows as [| r rows IHr]; intros Hk; [reflexivity |].
    cbn. rewrite (Hk r (or_introl eq_refl)), IHr; [reflexivity |].
    intros r' Hr'. apply Hk. now right. }
  unfold group_nodes. cbn [fst snd].
  destruct group as [| r0 rest]; [reflexivity |].
  cbn [filter is_premise position_node node_metadata].
  apply E. intros r Hr. exact (H key (r0 :: rest) r (or_introl eq_refl) Hr).
Qed.

End RunFacts.

(** X10. On a frame read from files whose conclusions and premises
    are [str] and whose [Argument ID] column is a column of texts, a
    missing [Argument ID], wherever it stands in the three tables,
    makes the run raise [TypeError]; the file then holds
    fewer lines than a complete run would print (one per row and one
    per distinct conclusion id). *)
Theorem missing_argument_id_raises {U : UnicodeData}
  (train dev test : list Line) (old : File) :
  texts_are_str (train ++ dev ++ test) ->
  read_from_files (train ++ dev ++ test) ->
  argument_ids_are_text (train ++ dev ++ test) ->
  Exists (fun l => line_Argument_ID l = NaN) (train ++ dev ++ test) ->
  fst (run_notebook train dev test old) = inl Py.TypeError
  /\ (length (snd (run_notebook train dev test old))
      < length train + length dev + length test
        + distinct (map (fun l => hash_text (cell_text (line_Conclusion l)))
                      (train ++ test ++ dev)))%nat.
Proof.
  intros T R _ H. rewrite (run_notebook_texts _ _ _ _ T), save_frame_run.
  cbn [fst snd]. pose proof (run_type_error train dev test T R H) as O.
  split; [exact O |].
  destruct (printed_length
              (frame_attempts
                 (groupby_of f_conclusion_id
                    (frame_rows (concat_frames train dev test)))))
    as [_ Hlt].
  specialize (Hlt _ O).
  rewrite frame_attempts_length, groupby_of_rows, frame_rows_length in Hlt.
  rewrite <- (length_map fst (groupby_of _ _)), groupby_of_keys,
    sorted_keys_length, frame_rows_conclusion_ids in Hlt.
  rewrite <- (length_map fst (concat_frames _ _ _)) in Hlt.
  rewrite concat_frames_lines, !length_app in Hlt. lia.
Qed.

Lemma missing_argument_id_raises_witness :
  texts_are_str (missing_id_lines ++ [] ++ [])
  /\ read_from_files (missing_id_lines ++ [] ++ [])
  /\ argument_ids_are_text (missing_id_lines ++ [] ++ [])
  /\ Exists (fun l => line_Argument_ID l = NaN) (missing_id_lines ++ [] ++ [])
  /\ (length (snd (run_notebook (U := basic_data) missing_id_lines [] [] []))
      < 3)%nat.
Proof.
  assert (T : texts_are_str (missing_id_lines ++ [] ++ []))
    by (repeat (constructor; [split; eexists; reflexivity |]); constructor).
  assert (R : read_from_files (missing_id_lines ++ [] ++ []))
    by (repeat constructor; discriminate).
  assert (E : Exists (fun l => line_Argument_ID l = NaN)
                (missing_id_lines ++ [] ++ []))
    by (right; left; reflexivity).
  assert (O : argument_ids_are_text (missing_id_lines ++ [] ++ []))
    by (left; eexists; reflexivity).
  split; [exact T |]. split; [exact R |]. split; [exact O |].
  split; [exact E |].
  pose proof (proj2 (missing_argument_id_raises (U := basic_data)
                       missing_id_lines [] [] [] T R O E)) as L.
  assert (D : distinct
                (map (fun l => hash_text (U := basic_data)
                                 (cell_text (line_Conclusion l)))
                   (missing_id_lines ++ [] ++ [])) = 1%nat)
    by (vm_compute; reflexivity).
  rewrite D in L. exact L.
Defined.

(** X11. When every row has an [Argument ID], the premise lines of the
    file are the premise nodes of the rows of the frame, each row once,
    in another order: no row is lost and none is written twice. *)
Theorem premise_lines_permutation {U : UnicodeData}
  (train dev test : list Argument) (old : File) :
  has_argument_ids (train ++ dev ++ test) ->
  Permutation
    (filter is_premise (snd (notebook train dev test old)))
    (map (fun r => premise_node_of (conclusion_id r) r)
       (dataset train dev test)).
Proof.
  intros H. rewrite (notebook_ok _ _ _ _ H). cbn [snd].
  rewrite premise_nodes_of_groups.
  - apply Permutation_map, groupby_permutation.
  - intros key group r Hg Hr. apply groupby_In in Hg. destruct Hg as [_ ->].
    apply filter_In in Hr. destruct Hr as [_ E]. now apply str_eqb_eq.
Qed.

Lemma premise_lines_permutation_witness :
  has_argument_ids (plastic_rows ++ [] ++ [])
  /\ Permutation
       (filter is_premise
          (snd (notebook (U := basic_data) plastic_rows [] [] [])))
       (map (fun r => premise_node_of (conclusion_id r) r)
          (dataset (U := basic_data) plastic_rows [] [])).
Proof.
  assert (H : has_argument_ids (plastic_rows ++ [] ++ [])) by sample_ids.
  split; [exact H |].
  exact (premise_lines_permutation (U := basic_data) plastic_rows [] [] [] H).
Defined.

(** X12. Every premise line of the file, of a run that returns or of
    one that raises, is built from one row of one table: it carries the
    [Argument ID] of the row, the content id of its premise as id, the
    content id of its conclusion as [related_to], and the name of its
    table, "train", "test" or "validation", as [original_split]. *)
Theorem premise_line_of_row {U : UnicodeData}
  (train dev test : list Argument) (old : File) (n : Node)
  (argument_id subdataset related_to original_split : str)
  (type : option str) :
  In n (snd (notebook train dev test old)) ->
  node_metadata n
  = PremiseMeta argument_id subdataset related_to original_split type ->
  exists a,
    raw_Argument_ID a = argument_id
    /\ node_id n = hash_text (raw_Premise a)
    /\ related_to = hash_text (raw_Conclusion a)
    /\ ((original_split = lit "train" /\ In a train)
        \/ (original_split = lit "test" /\ In a test)
        \/ (original_split = lit "validation" /\ In a dev)).
Proof.
  unfold notebook. rewrite save_dataset_run. cbn [snd]. intros Hin Hn.
  apply line_origin in Hin. destruct Hin as [r [Hr [_ [-> | ->]]]];
    [discriminate Hn |].
  cbn in Hn. inversion Hn; subst; clear Hn.
  destruct (dataset_In_split _ _ _ r Hr) as [a [[-> Ha] | [[-> Ha] | [-> Ha]]]];
    exists a; cbn; repeat split; auto.
Qed.

Lemma premise_line_of_row_witness :
  let n := premise_node_of (U := basic_data) (lit "b12e6f221578ba1f")
             (add_columns (lit "validation")
                (argument "D02" "Zoos are fine" "maybe" "Cats are cute. ")) in
  In n (snd (notebook (U := basic_data) [] plastic_rows [] []))
  /\ exists a,
       raw_Argument_ID a = lit "D02"
       /\ node_id n = hash_text (U := basic_data) (raw_Premise a)
       /\ lit "b12e6f221578ba1f"
          = hash_text (U := basic_data) (raw_Conclusion a)
       /\ ((lit "validation" = lit "train" /\ In a [])
           \/ (lit "validation" = lit "test" /\ In a [])
           \/ (lit "validation" = lit "validation" /\ In a plastic_rows)).
Proof.
  intros n.
  assert (Hin : In n (snd (notebook (U := basic_data) [] plastic_rows [] [])))
    by (vm_compute; tauto).
  split; [exact Hin |].
  exact (premise_line_of_row (U := basic_data) [] plastic_rows [] [] n
           _ _ _ _ _ Hin eq_refl).
Defined.

(** X13. Every line carries the dataset tag "touche-23"; the type of a
    position line is "Position", and the type of a premise line is
    "Attack", "Support" or absent, never anything else. *)
Theorem line_constants {U : UnicodeData}
  (train dev test : list Argument) (old : File) (n : Node) :
  In n (snd (notebook train dev test old)) ->
  node_dataset n = lit "touche-23"
  /\ match node_metadata n with
     | PositionMeta _ type => type = lit "Position"
     | PremiseMeta _ _ _ _ type =>
         type = None \/ type = Some (lit "Attack")
         \/ type = Some (lit "Support")
     end.
Proof.
  unfold notebook. rewrite save_dataset_run. cbn [snd]. intros Hin.
  apply line_origin in Hin. destruct Hin as [r [Hr [_ [-> | ->]]]];
    (split; [reflexivity |]); cbn; [reflexivity |].
  destruct (dataset_ids_of _ _ _ r Hr) as [_ [_ ->]]. apply relation_values.
Qed.

Lemma line_constants_witness :
  let n := position_node (U := basic_data) (lit "850ab7ed14d57432")
             (add_columns (lit "train")
                (argument "A01" "We should ban plastic" "in favor of"
                   "Plastic harms oceans")) in
  In n (snd (notebook (U := basic_data) plastic_rows [] [] []))
  /\ node_dataset n = lit "touche-23".
Proof.
  intros n.
  assert (Hin : In n (snd (notebook (U := basic_data) plastic_rows [] [] [])))
    by (vm_compute; tauto).
  split; [exact Hin |].
  exact (proj1 (line_constants (U := basic_data) plastic_rows [] [] [] n Hin)).
Defined.

(** X14. A position line is built from the first row of the frame
    (training rows first, then test, then validation) whose conclusion
    has its id: the text and the sub-dataset code of later rows with
    the same conclusion id are not shown. *)
Theorem position_from_first_row {U : UnicodeData}
  (train dev test : list Argument) (old : File) (n : Node) :
  In n (snd (notebook train dev test old)) ->
  is_position n = true ->
  exists first_row,
    find (fun r => str_eqb (conclusion_id r) (node_id n))
      (dataset train dev test)
    = Some first_row
    /\ n = position_node (node_id n) first_row.
Proof.
  unfold notebook. rewrite save_dataset_run. cbn [snd]. intros Hin Hp.
  destruct (printed_origin _ n Hin) as [key [group [Hg Hn]]].
  apply groupby_In in Hg. destruct Hg as [_ Eg].
  destruct Hn as [[r0 [rest [E [_ ->]]]] | [r [_ [_ ->]]]];
    [| discriminate Hp].
  exists r0. cbn [node_id position_node]. split; [| reflexivity].
  rewrite Eg in E. exact (filter_find _ _ _ _ E).
Qed.

Lemma position_from_first_row_witness :
  let n := position_node (U := basic_data) (lit "850ab7ed14d57432")
             (add_columns (lit "train")
                (argument "A01" "We should ban plastic" "in favor of"
                   "Plastic harms oceans")) in
  In n (snd (notebook (U := basic_data) plastic_rows [] [] []))
  /\ is_position n = true
  /\ exists first_row,
       find (fun r => str_eqb (conclusion_id r) (node_id n))
         (dataset (U := basic_data) plastic_rows [] [])
       = Some first_row
       /\ n = position_node (node_id n) first_row.
Proof.
  intros n.
  assert (Hin : In n (snd (notebook (U := basic_data) plastic_rows [] [] [])))
    by (vm_compute; tauto).
  split; [exact Hin |]. split; [reflexivity |].
  exact (position_from_first_row (U := basic_data) plastic_rows [] [] [] n
           Hin eq_refl).
Defined.

(** X15. The ids of the position lines of the file, read from top to
    bottom, are strictly ascending: they are the first of the sorted
    distinct conclusion ids of the frame, all of them when every row
    has an [Argument ID]. *)
Theorem position_ids_ascending {U : UnicodeData}
  (train dev test : list Argument) (old : File) :
  StronglySorted str_lt (position_ids (snd (notebook train dev test old)))
  /\ (exists rest,
        sorted_keys (map hash_text (map raw_Conclusion (train ++ test ++ dev)))
        = position_ids (snd (notebook train dev test old)) ++ rest)
  /\ (has_argument_ids (train ++ dev ++ test) ->
      position_ids (snd (notebook train dev test old))
      = sorted_keys (map hash_text (map raw_Conclusion (train ++ test ++ dev)))).
Proof.
  rewrite <- dataset_conclusions, <- groupby_keys.
  unfold notebook. rewrite save_dataset_run. cbn [snd].
  set (groups := groupby conclusion_id (dataset train dev test)).
  destruct (position_ids_prefix groups) as [rest E].
  assert (S : StronglySorted str_lt (map fst groups)).
  { unfold groups. rewrite groupby_keys. apply sorted_keys_sorted. }
  split; [rewrite E in S; exact (sorted_prefix _ _ S) |].
  split; [now exists rest |].
  intros H. pose proof (notebook_ok _ _ _ old H) as N.
  unfold notebook in N. rewrite save_dataset_run in N.
  inversion N as [[N1 N2]]. fold groups in N1, N2. rewrite N2.
  destruct (group_nodes_count groups) as [C _].
  { intros key group Hin. now apply groupby_nonempty in Hin. }
  assert (L : length (position_ids (printed (attempts groups)))
              = length (map fst groups)).
  { unfold position_ids. rewrite !length_map, N2. exact C. }
  rewrite E, length_app in L. destruct rest; [| cbn in L; lia].
  rewrite app_nil_r in E. now rewrite <- N2.
Qed.

Lemma position_ids_ascending_witness :
  has_argument_ids (plastic_rows ++ [] ++ [])
  /\ position_ids (snd (notebook (U := basic_data) plastic_rows [] [] []))
     = [lit "850ab7ed14d57432"; lit "b12e6f221578ba1f"].
Proof.
  assert (H : has_argument_ids (plastic_rows ++ [] ++ [])) by sample_ids.
  split; [exact H |].
  rewrite (proj2 (proj2 (position_ids_ascending (U := basic_data)
                           plastic_rows [] [] [])) H).
  vm_compute. reflexivity.
Defined.

Lemma sorted_same_elements (l l' : list str) :
  StronglySorted str_lt l -> StronglySorted str_lt l' ->
  (forall x, In x l <-> In x l') -> l = l'.
Proof.
  intros S. revert l'. induction S as [| x l S IH F]; intros l' S' H.
  - destruct l' as [| y l']; [reflexivity |].
    destruct (proj2 (H y) (or_introl eq_refl)).
  - destruct S' as [| y l' S' F'].
    + destruct (proj1 (H x) (or_introl eq_refl)).
    + rewrite Forall_forall in F, F'.
      assert (E : x = y).
      { destruct (proj1 (H x) (or_introl eq_refl)) as [E | Hx]; [auto |].
        destruct (proj2 (H y) (or_introl eq_refl)) as [E | Hy]; [auto |].
        exfalso. apply (str_lt_neq x x); [| reflexivity].
        apply str_lt_trans with y; [now apply F | now apply F']. }
      subst y. f_equal. apply IH; [exact S' |].
      intros z. split; intros Hz.
      * destruct (proj1 (H z) (or_intror Hz)) as [E | Hz']; [| exact Hz'].
        exfalso. apply (str_lt_neq x z); [now apply F | exact E].
      * destruct (proj2 (H z) (or_intror Hz)) as [E | Hz']; [| exact Hz'].
        exfalso. apply (str_lt_neq x z); [now apply F' | exact E].
Qed.

(** X16. The position ids of the file, and their order, depend on the
    set of conclusion ids only: two inputs whose rows all have an
    [Argument ID] and whose conclusions have the same ids, in whatever
    order and number of rows, give the same list of position ids. *)
Theorem position_ids_of_set {U : UnicodeData}
  (train dev test train' dev' test' : list Argument) (old old' : File) :
  has_argument_ids (train ++ dev ++ test) ->
  has_argument_ids (train' ++ dev' ++ test') ->
  (forall k,
     In k (map hash_text (map raw_Conclusion (train ++ test ++ dev)))
     <-> In k (map hash_text (map raw_Conclusion (train' ++ test' ++ dev')))) ->
  position_ids (snd (notebook train dev test old))
  = position_ids (snd (notebook train' dev' test' old')).
Proof.
  intros H H' Hset.
  assert (E : forall t d e o, has_argument_ids (t ++ d ++ e) ->
            position_ids (snd (notebook t d e o))
            = sorted_keys (map hash_text (map raw_Conclusion (t ++ e ++ d)))).
  { intros t d e o Hids.
    pose proof (notebook_ok _ _ _ o Hids) as N. unfold notebook in *.
    rewrite save_dataset_run in *. cbn [snd].
    set (groups := groupby conclusion_id (dataset t d e)) in *.
    destruct (position_ids_prefix groups) as [rest P].
    assert (N2 : printed (attempts groups) = flat_map group_nodes groups)
      by congruence.
    destruct (group_nodes_count groups) as [C _].
    { intros key group Hin. now apply groupby_nonempty in Hin. }
    assert (Len : length (map fst groups)
                  = length (position_ids (printed (attempts groups)))).
    { unfold position_ids. rewrite !length_map, N2. now rewrite C. }
    rewrite P, length_app in Len. destruct rest; [| cbn in Len; lia].
    rewrite app_nil_r in P. rewrite <- P. unfold groups.
    now rewrite groupby_keys, dataset_conclusions. }
  rewrite (E _ _ _ _ H), (E _ _ _ _ H').
  apply sorted_same_elements; try apply sorted_keys_sorted.
  intros k. rewrite !sorted_keys_In. apply Hset.
Qed.

Lemma position_ids_of_set_witness :
  has_argument_ids (plastic_rows ++ [] ++ [])
  /\ has_argument_ids ([] ++ rev plastic_rows ++ [])
  /\ position_ids (snd (notebook (U := basic_data) plastic_rows [] [] []))
     = position_ids
         (snd (notebook (U := basic_data) [] (rev plastic_rows) [] [])).
Proof.
  assert (H : has_argument_ids (plastic_rows ++ [] ++ [])) by sample_ids.
  assert (H' : has_argument_ids ([] ++ rev plastic_rows ++ []))
    by sample_ids.
  split; [exact H |]. split; [exact H' |].
  apply (position_ids_of_set (U := basic_data)
           plastic_rows [] [] [] (rev plastic_rows) [] [] [] H H').
  intros k. vm_compute. tauto.
Defined.

(** X17. On tables all of whose cells are [str], the run on the frames
    as [pd.read_csv] delivers them is the run [notebook]; and when a
    conclusion or a premise is missing, the run raises
    [AttributeError] before the last cell and leaves the output file
    as it was. *)
Theorem run_notebook_refines {U : UnicodeData}
  (train dev test : list Argument) (train' dev' test' : list Line)
  (old : File) :
  run_notebook (map line_of train) (map line_of dev) (map line_of test) old
  = notebook train dev test old
  /\ (~ texts_are_str (train' ++ dev' ++ test') ->
      run_notebook train' dev' test' old = (inl Py.AttributeError, old)).
Proof.
  split; [apply run_notebook_str | apply run_notebook_missing_text].
Qed.

Lemma run_notebook_refines_witness :
  ~ texts_are_str
      ([{| line_Argument_ID := Str (lit "A01");
           line_Conclusion := NaN;
           line_Stance := Str (lit "against");
           line_Premise := Str (lit "first premise") |}] ++ [] ++ [])
  /\ run_notebook (U := basic_data)
       [{| line_Argument_ID := Str (lit "A01");
           line_Conclusion := NaN;
           line_Stance := Str (lit "against");
           line_Premise := Str (lit "first premise") |}] [] []
       (snd (notebook (U := basic_data) plastic_rows [] [] []))
     = (inl Py.AttributeError,
        snd (notebook (U := basic_data) plastic_rows [] [] [])).
Proof.
  assert (N : ~ texts_are_str
                ([{| line_Argument_ID := Str (lit "A01");
                     line_Conclusion := NaN;
                     line_Stance := Str (lit "against");
                     line_Premise := Str (lit "first premise") |}]
                 ++ [] ++ [])).
  { intros H. inversion H as [| ? ? [[s E] _] _]. discriminate E. }
  split; [exact N |].
  exact (proj2 (run_notebook_refines (U := basic_data) [] [] [] _ [] [] _) N).
Defined.

(** ** The examples of the specification *)

(** A row of the training table yields a position line and a premise
    line related to it. *)
Example plastic_example :
  notebook (U := basic_data)
    [argument "A01" "We should ban plastic" "in favor of"
       "Plastic harms oceans"] [] [] []
  = (inr tt,
     [{| node_dataset := lit "touche-23";
         node_id := lit "850ab7ed14d57432";
         node_text := lit "We should ban plastic";
         node_metadata := PositionMeta (lit "A") (lit "Position") |};
      {| node_dataset := lit "touche-23";
         node_id := lit "68f661c25401c21b";
         node_text := lit "Plastic harms oceans";
         node_metadata :=
           PremiseMeta (lit "A01") (lit "A") (lit "850ab7ed14d57432")
             (lit "train") (Some (lit "Support")) |}]).
Proof. vm_compute. reflexivity. Qed.

(** Two premises equal up to case and whitespace share their id and
    keep their two lines. *)
Example cats_example :
  map (fun n => (node_id n, is_premise n))
    (filter (fun n => str_eqb (node_id n) (hash_text (lit "cats are cute.")))
       (snd (notebook (U := basic_data) plastic_rows [] [] [])))
  = [(lit "00b9bf5e3e5a4ee3", true); (lit "00b9bf5e3e5a4ee3", true)].
Proof. vm_compute. reflexivity. Qed.

(** The lines follow the keys, not the rows: the third row is printed
    before the second. *)
Example grouped_example :
  map node_subdataset
    (filter is_premise (snd (notebook (U := basic_data) plastic_rows [] [] [])))
  = [lit "A"; lit "E"; lit "D"].
Proof. vm_compute. reflexivity. Qed.

(** A capital sigma at the end of a word becomes a final sigma. *)
Example final_sigma_example :
  lower (U := basic_data) [97; CAPITAL_SIGMA; 32; CAPITAL_SIGMA; 98]
  = [97; FINAL_SIGMA; 32; SMALL_SIGMA; 98].
Proof. reflexivity. Qed.

(** A letter of ASCII in its two cases. *)
Example same_letter_example :
  Forall2 (same_letter (U := basic_data)) (lit "PLASTIC") (lit "plastic").
Proof.
  repeat constructor; unfold CAPITAL_SIGMA; intros E; discriminate E.
Qed.
